(** * Image upload app ([src/app.tsx]): a shallow embedding and its properties

    The component [App] keeps four pieces of React state ([imageUrl],
    [isUploading], [error], [success]) and defines the asynchronous helpers
    [getImageInfo], [getFileMimeType], [handleFileUpload] and
    [handleUrlUpload].  The asynchronous code is embedded as a free monad
    [Async] whose nodes are the [setState] calls and the awaited platform
    calls; the platform (file reader, [fetch], image decoder, Canva's
    [upload] and [addElement]) answers through an oracle.

    Strings stand for JavaScript strings whose code units lie in the Latin-1
    range: one [ascii] per code unit. *)

From Stdlib Require Import List String Ascii Bool ZArith Lia Arith.
Import ListNotations.
Local Open Scope string_scope.

(** ** String primitives of the JavaScript standard library *)

Module Js.

(** [s.startsWith(p)] *)
Definition startsWith (s p : string) : bool := String.prefix p s.

(** [s.includes(sub)] *)
Fixpoint includes (s sub : string) : bool :=
  String.prefix sub s ||
  match s with
  | EmptyString => false
  | String _ rest => includes rest sub
  end.

(** [s.split(sep)] for a one-character separator: never the empty list. *)
Fixpoint split (sep : ascii) (s : string) : list string :=
  match s with
  | EmptyString => [EmptyString]
  | String c rest =>
      if Ascii.eqb c sep then EmptyString :: split sep rest
      else match split sep rest with
           | seg :: segs => String c seg :: segs
           | [] => [String c EmptyString]
           end
  end.

(** [a.pop()] on the array that [split] returns: its last element. *)
Definition pop (a : list string) : option string :=
  match a with
  | [] => None
  | x :: xs => Some (last xs x)
  end.

(** [a[0]] *)
Definition first (a : list string) : option string := hd_error a.

(** [toLowerCase] on one code unit of the Latin-1 range: A-Z, and
    U+00C0-U+00DE except the multiplication sign U+00D7. *)
Definition lower_unit (c : ascii) : ascii :=
  let n := nat_of_ascii c in
  if (((65 <=? n) && (n <=? 90)) ||
      ((192 <=? n) && (n <=? 222) && negb (n =? 215)))%nat
  then ascii_of_nat (n + 32) else c.

Fixpoint toLowerCase (s : string) : string :=
  match s with
  | EmptyString => EmptyString
  | String c rest => String (lower_unit c) (toLowerCase rest)
  end.

(** White space and line terminators that [trim] removes (Latin-1 range):
    TAB, LF, VT, FF, CR, SP, NBSP. *)
Definition is_space (c : ascii) : bool :=
  let n := nat_of_ascii c in
  (((9 <=? n) && (n <=? 13)) || (n =? 32) || (n =? 160))%nat.

Fixpoint trimStart (s : string) : string :=
  match s with
  | EmptyString => EmptyString
  | String c rest => if is_space c then trimStart rest else s
  end.

Fixpoint trimEnd (s : string) : string :=
  match s with
  | EmptyString => EmptyString
  | String c rest =>
      match trimEnd rest with
      | EmptyString => if is_space c then EmptyString else String c EmptyString
      | kept => String c kept
      end
  end.

(** [s.trim()] *)
Definition trim (s : string) : string := trimEnd (trimStart s).

(** Truthiness of a string: non-empty. *)
Definition truthy (s : string) : bool :=
  match s with EmptyString => false | _ => true end.

(** [a || b] on strings *)
Definition or_else (a b : string) : string := if truthy a then a else b.

(** The longest prefix of [s] without [';']: what [[^;]+] consumes. *)
Fixpoint not_semicolon_run (s : string) : string :=
  match s with
  | EmptyString => EmptyString
  | String c rest =>
      if Ascii.eqb c ";"%char then EmptyString
      else String c (not_semicolon_run rest)
  end.

Definition drop5 (s : string) : string :=
  match s with
  | String _ (String _ (String _ (String _ (String _ rest)))) => rest
  | _ => EmptyString
  end.

(** [s.match(/data:([^;]+)/)]: the capture group of the leftmost match.
    The pattern is not anchored: a position where ["data:"] is followed by
    [';'] or by the end of the string does not match, and the search goes
    on to the right. *)
Fixpoint match_data (s : string) : option string :=
  match s with
  | EmptyString => None
  | String _ rest =>
      if String.prefix "data:" s then
        match not_semicolon_run (drop5 s) with
        | EmptyString => match_data rest
        | captured => Some captured
        end
      else match_data rest
  end.

End Js.

(** ** Data model *)

(** The union type ["image/jpeg" | "image/png"]. *)
Inductive MimeType : Type := ImageJpeg | ImagePng.

Definition mime_string (m : MimeType) : string :=
  match m with
  | ImageJpeg => "image/jpeg"
  | ImagePng => "image/png"
  end.

(** A [File]: its name, its declared type and its bytes. *)
Record File : Type := mkFile {
  file_name : string;
  file_type : string;
  file_bytes : list Byte.byte
}.

(** [blob.slice(0, 8)] and [arrayBuffer.slice(0, 8)] *)
Definition slice8 (bytes : list Byte.byte) : list Byte.byte := firstn 8 bytes.
Arguments slice8 : simpl never.

(** [bytes[i] === b]; an index past the end reads [undefined]. *)
Definition byte_at_is (bytes : list Byte.byte) (i : nat) (b : Byte.byte) : bool :=
  match nth_error bytes i with
  | Some x => Byte.eqb x b
  | None => false
  end.

(** A thrown value or rejection reason: an [Error] instance (possibly a
    [TypeError]) with its message, or some other value, such as the DOM
    event that [img.onerror] and [reader.onerror] pass to [reject]. *)
Inductive Thrown : Type :=
| ErrorObject (isTypeError : bool) (message : string)
| OtherValue.

(** [{ width, height, mimeType }] *)
Record ImageInfo : Type := mkImageInfo {
  info_width : Z;
  info_height : Z;
  info_mimeType : MimeType
}.

(** The options that the handlers pass to [upload]; [type: "image"] and
    [aiDisclosure: "none"] are constant. *)
Record UploadOptions : Type := mkUploadOptions {
  up_mimeType : MimeType;
  up_url : string;
  up_thumbnailUrl : string;
  up_width : Z;
  up_height : Z
}.

(** What [upload] resolves to: a handle with a [ref]. *)
Record AssetHandle : Type := mkHandle { handle_ref : string }.

(** The React state of [App]. *)
Record AppState : Type := mkState {
  imageUrl : string;
  isUploading : bool;
  error : option string;
  success : bool
}.

Definition initialState : AppState :=
  {| imageUrl := ""; isUploading := false; error := None; success := false |}.

(** The four state setters. *)
Inductive Update : Type :=
| SetImageUrl (v : string)
| SetIsUploading (b : bool)
| SetError (e : option string)
| SetSuccess (b : bool).

Definition apply_update (u : Update) (st : AppState) : AppState :=
  match u with
  | SetImageUrl v =>
      {| imageUrl := v; isUploading := isUploading st; error := error st; success := success st |}
  | SetIsUploading b =>
      {| imageUrl := imageUrl st; isUploading := b; error := error st; success := success st |}
  | SetError e =>
      {| imageUrl := imageUrl st; isUploading := isUploading st; error := e; success := success st |}
  | SetSuccess b =>
      {| imageUrl := imageUrl st; isUploading := isUploading st; error := error st; success := b |}
  end.

(** ** Awaited platform calls *)

Inductive Call : Type -> Type :=
| ReadAsArrayBuffer (blob : list Byte.byte) : Call (option (list Byte.byte))
    (* [onload] with [e.target?.result], or [onerror] *)
| ReadAsDataURL (file : File) : Call string
| FetchHead (url : string) : Call (option string)
    (* [fetch(url, {method: "HEAD"})], then [headers.get("content-type")] *)
| LoadImage (src : string) : Call (Z * Z)
    (* [new Image()], [img.src = src]: [onload] gives width and height *)
| Upload (opts : UploadOptions) : Call AssetHandle
| AddElement (ref : string) (altText : string) : Call unit
| WhenUploaded (image : AssetHandle) : Call unit.

(** How an awaited call settles. *)
Inductive Settled (X : Type) : Type :=
| Resolved (x : X)
| Rejected (reason : Thrown).
Arguments Resolved {X} x.
Arguments Rejected {X} reason.

(** ** The [Async] monad: state updates, awaits, exceptions *)

Inductive Async (A : Type) : Type :=
| Return (a : A)
| Throw (e : Thrown)
| Act (u : Update) (k : Async A)
| Await (X : Type) (c : Call X) (k : Settled X -> Async A).
Arguments Return {A} a.
Arguments Throw {A} e.
Arguments Act {A} u k.
Arguments Await {A X} c k.

Fixpoint bind {A B : Type} (m : Async A) (f : A -> Async B) : Async B :=
  match m with
  | Return a => f a
  | Throw e => Throw e
  | Act u k => Act u (bind k f)
  | Await c k => Await c (fun o => bind (k o) f)
  end.

(** [try { m } catch (err) { h err }] *)
Fixpoint try_catch {A : Type} (m : Async A) (h : Thrown -> Async A) : Async A :=
  match m with
  | Return a => Return a
  | Throw e => h e
  | Act u k => Act u (try_catch k h)
  | Await c k => Await c (fun o => try_catch (k o) h)
  end.

(** [try { m } finally { fin }] *)
Fixpoint try_finally {A : Type} (m : Async A) (fin : Async unit) : Async A :=
  match m with
  | Return a => bind fin (fun _ => Return a)
  | Throw e => bind fin (fun _ => Throw e)
  | Act u k => Act u (try_finally k fin)
  | Await c k => Await c (fun o => try_finally (k o) fin)
  end.

(** [await c]: a rejection is thrown at the [await]. *)
Definition await {X : Type} (c : Call X) : Async X :=
  Await c (fun o => match o with
                    | Resolved x => Return x
                    | Rejected e => Throw e
                    end).

Definition set (u : Update) : Async unit := Act u (Return tt).

Declare Scope async_scope.
Delimit Scope async_scope with async.
Notation "x <- m ;; k" := (bind m (fun x => k))
  (at level 61, m at next level, right associativity) : async_scope.
Notation "m ;;; k" := (bind m (fun _ => k))
  (at level 61, right associativity) : async_scope.
Local Open Scope async_scope.

(** ** Running a program against the platform *)

(** The platform's answers to the awaited calls. *)
Definition Oracle : Type := forall X : Type, Call X -> Settled X.

Inductive Event : Type :=
| EvSet (u : Update)
| EvCall (X : Type) (c : Call X) (o : Settled X).
Arguments EvCall {X} c o.

Inductive Completion (A : Type) : Type :=
| Fulfilled (a : A)
| Failed (e : Thrown).
Arguments Fulfilled {A} a.
Arguments Failed {A} e.

(** The events of a run, in order. *)
Fixpoint trace {A : Type} (env : Oracle) (p : Async A) : list Event :=
  match p with
  | Return _ => []
  | Throw _ => []
  | Act u k => EvSet u :: trace env k
  | Await c k => EvCall c (env _ c) :: trace env (k (env _ c))
  end.

(** How the promise of a run settles. *)
Fixpoint completion {A : Type} (env : Oracle) (p : Async A) : Completion A :=
  match p with
  | Return a => Fulfilled a
  | Throw e => Failed e
  | Act _ k => completion env k
  | Await c k => completion env (k (env _ c))
  end.

(** The state after the updates of a trace. *)
Fixpoint replay (tr : list Event) (st : AppState) : AppState :=
  match tr with
  | [] => st
  | EvSet u :: rest => replay rest (apply_update u st)
  | EvCall _ _ :: rest => replay rest st
  end.

Definition final_state {A : Type} (env : Oracle) (p : Async A) (st : AppState) : AppState :=
  replay (trace env p) st.

(** ** [getFileMimeType] *)

(** The [reader.onload] callback on the bytes read. *)
Definition sniff_signature (arrayBuffer : list Byte.byte) : MimeType :=
  let bytes := slice8 arrayBuffer in
  if byte_at_is bytes 0 Byte.x89 && byte_at_is bytes 1 Byte.x50 &&
     byte_at_is bytes 2 Byte.x4e && byte_at_is bytes 3 Byte.x47
  then ImagePng
  else if byte_at_is bytes 0 Byte.xff && byte_at_is bytes 1 Byte.xd8 &&
          byte_at_is bytes 2 Byte.xff
  then ImageJpeg
  else ImageJpeg.

Definition getFileMimeType (file : File) : Async MimeType :=
  if String.eqb (file_type file) "image/png" then Return ImagePng
  else if String.eqb (file_type file) "image/jpeg" || String.eqb (file_type file) "image/jpg"
  then Return ImageJpeg
  else
    Await (ReadAsArrayBuffer (slice8 (file_bytes file)))
      (fun o => match o with
                | Resolved (Some arrayBuffer) => Return (sniff_signature arrayBuffer)
                | Resolved None => Return ImageJpeg
                | Rejected _ => Return ImageJpeg
                end).

(** ** [getImageInfo] *)

(** The MIME type read off a data URL: the capture of [/data:([^;]+)/]. *)
Definition data_url_mime (url : string) : MimeType :=
  match Js.match_data url with
  | Some detectedType =>
      if String.eqb detectedType "image/png" then ImagePng
      else if String.eqb detectedType "image/jpeg" || String.eqb detectedType "image/jpg"
      then ImageJpeg
      else ImageJpeg
  | None => ImageJpeg
  end.

(** The MIME type read off the [content-type] header of the HEAD response. *)
Definition content_type_mime (contentType : option string) : MimeType :=
  match contentType with
  | Some ct =>
      if Js.truthy ct then
        if Js.includes ct "image/png" then ImagePng
        else if Js.includes ct "image/jpeg" || Js.includes ct "image/jpg"
        then ImageJpeg
        else ImageJpeg
      else ImageJpeg
  | None => ImageJpeg
  end.

(** [url.split(".").pop()?.toLowerCase().split("?")[0]] *)
Definition url_extension (url : string) : option string :=
  match Js.pop (Js.split "."%char url) with
  | Some seg => Js.first (Js.split "?"%char (Js.toLowerCase seg))
  | None => None
  end.

(** The [catch] block of the HEAD request. *)
Definition extension_mime (url : string) : MimeType :=
  match url_extension url with
  | Some extension => if String.eqb extension "png" then ImagePng else ImageJpeg
  | None => ImageJpeg
  end.

(** The dimension probe: decode through an [Image] element. *)
Definition load_dimensions (url : string) : Async (Z * Z) := await (LoadImage url).

Definition getImageInfo (url : string) : Async ImageInfo :=
  if Js.startsWith url "data:" then
    let mimeType := data_url_mime url in
    dimensions <- load_dimensions url ;;
    Return (mkImageInfo (fst dimensions) (snd dimensions) mimeType)
  else
    mimeType <- try_catch
                  (contentType <- await (FetchHead url) ;;
                   Return (content_type_mime contentType))
                  (fun _ => Return (extension_mime url)) ;;
    dimensions <- load_dimensions url ;;
    Return (mkImageInfo (fst dimensions) (snd dimensions) mimeType).

(** ** The upload handlers *)

(** [intl.formatMessage({ defaultMessage })] in the default locale. *)
Definition formatMessage (defaultMessage : string) : string := defaultMessage.

(** [err instanceof Error ? err.message : fallback] *)
Definition message_or (err : Thrown) (fallback : string) : string :=
  match err with
  | ErrorObject _ message => message
  | OtherValue => fallback
  end.

(** [err instanceof TypeError] *)
Definition instanceof_TypeError (err : Thrown) : bool :=
  match err with
  | ErrorObject isTypeError _ => isTypeError
  | OtherValue => false
  end.

(** [err.message] of an [Error] instance. *)
Definition thrown_message (err : Thrown) : string := message_or err "".

Definition handleFileUpload (file : File) : Async unit :=
  if negb (Js.startsWith (file_type file) "image/") then
    set (SetError (Some (formatMessage "Please select an image file")))
  else
    set (SetIsUploading true) ;;;
    set (SetError None) ;;;
    set (SetSuccess false) ;;;
    try_finally
      (try_catch
         (mimeType <- getFileMimeType file ;;
          dataUrl <- await (ReadAsDataURL file) ;;
          info <- getImageInfo dataUrl ;;
          image <- await (Upload {| up_mimeType := mimeType;
                                    up_url := dataUrl;
                                    up_thumbnailUrl := dataUrl;
                                    up_width := info_width info;
                                    up_height := info_height info |}) ;;
          await (AddElement (handle_ref image)
                            (Js.or_else (file_name file) "uploaded image")) ;;;
          await (WhenUploaded image) ;;;
          set (SetSuccess true) ;;;
          set (SetImageUrl ""))
         (fun err =>
            set (SetError (Some (message_or err
              (formatMessage "Failed to upload image. Please try again."))))))
      (set (SetIsUploading false)).

Section UrlUpload.

(** [new URL(url)]: the exception the platform's URL parser throws on
    [url], if any. *)
Variable newURL : string -> option Thrown.

Definition validate_url (url : string) : Async unit :=
  match newURL url with
  | Some e => Throw e
  | None => Return tt
  end.

Definition handleUrlUpload (url : string) : Async unit :=
  if negb (Js.truthy (Js.trim url)) then
    set (SetError (Some (formatMessage "Please enter an image URL")))
  else
    set (SetIsUploading true) ;;;
    set (SetError None) ;;;
    set (SetSuccess false) ;;;
    try_finally
      (try_catch
         (validate_url url ;;;
          info <- getImageInfo url ;;
          image <- await (Upload {| up_mimeType := info_mimeType info;
                                    up_url := url;
                                    up_thumbnailUrl := url;
                                    up_width := info_width info;
                                    up_height := info_height info |}) ;;
          await (AddElement (handle_ref image) "uploaded image") ;;;
          await (WhenUploaded image) ;;;
          set (SetSuccess true) ;;;
          set (SetImageUrl ""))
         (fun err =>
            if instanceof_TypeError err &&
               Js.includes (thrown_message err) "Invalid URL"
            then set (SetError (Some (formatMessage "Please enter a valid URL")))
            else
              set (SetError (Some (message_or err
                (formatMessage "Failed to upload image. Please check the URL and try again."))))))
      (set (SetIsUploading false)).

(** A submission: the button with the typed URL, or the file picker. *)
Inductive Submission : Type :=
| SubmitUrl (url : string)
| SubmitFile (file : File).

Definition submit (s : Submission) : Async unit :=
  match s with
  | SubmitUrl url => handleUrlUpload url
  | SubmitFile file => handleFileUpload file
  end.

End UrlUpload.

(** The [onChange] callback of the URL text input. *)
Definition onChange (value : string) (st : AppState) : AppState :=
  apply_update (SetSuccess false)
    (apply_update (SetError None)
       (apply_update (SetImageUrl value) st)).

(** What the view derives from the state: the button and both inputs are
    disabled while [isUploading]. *)
Definition button_disabled (st : AppState) : bool :=
  isUploading st || negb (Js.truthy (Js.trim (imageUrl st))).
Definition inputs_disabled (st : AppState) : bool := isUploading st.

(** ** Events of interest in a trace *)

Definition is_upload_call (ev : Event) : bool :=
  match ev with
  | EvCall (Upload _) _ => true
  | _ => false
  end.

Definition is_call (ev : Event) : bool :=
  match ev with
  | EvCall _ _ => true
  | EvSet _ => false
  end.

Definition is_decode_failure (ev : Event) : bool :=
  match ev with
  | EvCall (LoadImage _) (Rejected _) => true
  | _ => false
  end.

Definition is_success_set (ev : Event) : bool :=
  match ev with
  | EvSet (SetSuccess true) => true
  | _ => false
  end.

(** The number of calls to [upload] in a trace. *)
Definition upload_calls (tr : list Event) : nat :=
  List.length (filter is_upload_call tr).

(** ** Suspending and resuming a handler *)

(** JavaScript runs a handler to its next [await] without interruption.  A
    task is therefore suspended at the awaited platform calls only; between
    two of them its state updates are one step of the event loop.  The
    handlers read no state: the URL is an argument, fixed at the click. *)

(** The synchronous part of a task: its state updates up to the next
    [await] or to its end. *)
Fixpoint sync {A : Type} (p : Async A) (st : AppState) : Async A * AppState :=
  match p with
  | Act u k => sync k (apply_update u st)
  | _ => (p, st)
  end.

Definition pending {A : Type} (p : Async A) : bool :=
  match p with
  | Await _ _ => true
  | _ => false
  end.

(** The awaited call of a suspended task settles, and the task runs on to
    its next [await]. *)
Definition resume {A : Type} (env : Oracle) (p : Async A) (st : AppState)
  : option (Async A * AppState) :=
  match p with
  | Await c k => Some (sync (k (env _ c)) st)
  | _ => None
  end.

(** The indicators that a state shows. *)
Definition indicators (st : AppState) : option string * bool := (error st, success st).

(** The outcome of a submission on its own, from the initial state. *)
Definition outcome (env : Oracle) (h : Async unit) : option string * bool :=
  indicators (final_state env h initialState).

(** ** Sample platforms and inputs *)

(** A platform on which every call succeeds: reads return the bytes asked
    for, the HEAD response has no [content-type] header, the image decodes
    to 2 x 3 pixels. *)
Definition obliging : Oracle :=
  fun X c =>
    match c in Call X return Settled X with
    | ReadAsArrayBuffer blob => Resolved (Some blob)
    | ReadAsDataURL file => Resolved ("data:" ++ file_type file ++ ";base64,AAAA")
    | FetchHead _ => Resolved None
    | LoadImage _ => Resolved (2, 3)%Z
    | Upload _ => Resolved {| handle_ref := "asset-1" |}
    | AddElement _ _ => Resolved tt
    | WhenUploaded _ => Resolved tt
    end.

(** The same platform, except that the image does not decode. *)
Definition undecodable : Oracle :=
  fun X c =>
    match c in Call X return Settled X with
    | LoadImage _ => Rejected OtherValue
    | other => obliging _ other
    end.

(** The same platform, except that the HEAD request fails. *)
Definition offline_head : Oracle :=
  fun X c =>
    match c in Call X return Settled X with
    | FetchHead _ => Rejected (ErrorObject true "Failed to fetch")
    | other => obliging _ other
    end.

(** A URL parser that rejects the strings without a scheme separator, with
    the message of Chromium and Node. *)
Definition sample_newURL (url : string) : option Thrown :=
  if Js.includes url "://" || Js.startsWith url "data:" then None
  else Some (ErrorObject true "Failed to construct 'URL': Invalid URL").

Definition png_signature : list Byte.byte := [Byte.x89; Byte.x50; Byte.x4e; Byte.x47].
Definition jpeg_signature : list Byte.byte := [Byte.xff; Byte.xd8; Byte.xff].

(** A PNG file that the browser reports as JPEG. *)
Definition mislabelled_png : File :=
  {| file_name := "photo.jpg";
     file_type := "image/jpeg";
     file_bytes := (png_signature ++ [Byte.x0d; Byte.x0a; Byte.x1a; Byte.x0a; Byte.x00])%list |}.

(** A PNG file declared with the old type [image/x-png]. *)
Definition x_png : File :=
  {| file_name := "logo.png";
     file_type := "image/x-png";
     file_bytes := (png_signature ++ [Byte.x0d; Byte.x0a; Byte.x1a; Byte.x0a; Byte.x00])%list |}.

(** A state in which a URL has been typed. *)
Definition typed_state : AppState :=
  {| imageUrl := "https://example.com/a.png"; isUploading := false;
     error := None; success := false |}.

(** A remote URL that ends in [.png] and a query string. *)
Definition png_query_url : string := "https://example.com/a.png?x=1".

(** A data URL without MIME token: a base64 JPEG payload, and a fragment
    that reads like the head of another data URL. *)
Definition tokenless_data_url : string := "data:;base64,/9j/4AAQSkZJRg==#data:image/png".

(** The declared types that [getFileMimeType] returns without reading. *)
Definition declared_mime (declared : string) : option MimeType :=
  if String.eqb declared "image/png" then Some ImagePng
  else if String.eqb declared "image/jpeg" || String.eqb declared "image/jpg"
  then Some ImageJpeg
  else None.

(** The format that the leading bytes announce (section 4.1 of the
    specification): [89 50 4E 47] is PNG, [FF D8 FF] is JPEG. *)
Definition announced_by (bytes : list Byte.byte) (m : MimeType) : Prop :=
  match m with
  | ImagePng => exists rest, bytes = (png_signature ++ rest)%list
  | ImageJpeg => exists rest, bytes = (jpeg_signature ++ rest)%list
  end.

(** [c] occurs in [s]. *)
Fixpoint occurs (c : ascii) (s : string) : bool :=
  match s with
  | EmptyString => false
  | String a rest => Ascii.eqb a c || occurs c rest
  end.

(** ** The shape of a handler after its first three updates *)

(** What the [catch] and [finally] blocks write. *)
Definition failure_writes (msg : string) : Async unit :=
  Act (SetError (Some msg)) (Act (SetIsUploading false) (Return tt)).

(** What the end of the [try] block and the [finally] block write. *)
Definition success_writes : Async unit :=
  Act (SetSuccess true) (Act (SetImageUrl "") (Act (SetIsUploading false) (Return tt))).

Definition is_insertion (ev : Event) : bool :=
  match ev with
  | EvCall (AddElement _ _) _ => true
  | _ => false
  end.

(** [Pipeline past p]: after the settled calls [past] (latest first), the
    task [p] awaits further calls without touching the state and ends
    either with the failure updates or, when the last three calls were
    [upload], [addElement] and [whenUploaded], all resolved, with the
    success updates. *)
Inductive Pipeline : list Event -> Async unit -> Prop :=
| Pipeline_await (past : list Event) (X : Type) (c : Call X)
    (k : Settled X -> Async unit) :
    (forall o : Settled X, Pipeline (EvCall c o :: past) (k o)) ->
    Pipeline past (Await c k)
| Pipeline_failure (past : list Event) (msg : string) :
    (existsb is_decode_failure past = true -> existsb is_upload_call past = false) ->
    Pipeline past (failure_writes msg)
| Pipeline_success (past older : list Event) (opts : UploadOptions)
    (image : AssetHandle) (altText : string) :
    past = EvCall (WhenUploaded image) (Resolved tt)
           :: EvCall (AddElement (handle_ref image) altText) (Resolved tt)
           :: EvCall (Upload opts) (Resolved image)
           :: older ->
    existsb is_upload_call older = false ->
    existsb is_insertion older = false ->
    existsb is_decode_failure older = false ->
    Pipeline past success_writes.

(** The first three updates of both handlers. *)
Definition started : list Event :=
  [EvSet (SetIsUploading true); EvSet (SetError None); EvSet (SetSuccess false)].

(** A task that only writes and returns. *)
Fixpoint WritesOnly (p : Async unit) : Prop :=
  match p with
  | Return _ => True
  | Throw _ => False
  | Act _ k => WritesOnly k
  | Await _ _ => False
  end.

(** A task that does not touch the state before its last await has
    settled: all its updates come in one piece, at its end. *)
Fixpoint Quiet (p : Async unit) : Prop :=
  match p with
  | Await _ k => forall o, Quiet (k o)
  | other => WritesOnly other
  end.


(** The updates that a task still makes, applied to a state. *)
Definition effect (env : Oracle) (p : Async unit) (st : AppState) : AppState :=
  replay (trace env p) st.

(** How a started handler closes: what its last updates are. *)
Inductive Closing : Type :=
| Succeeds
| Fails (msg : string).

Definition close (c : Closing) (st : AppState) : AppState :=
  match c with
  | Succeeds =>
      apply_update (SetIsUploading false)
        (apply_update (SetImageUrl "") (apply_update (SetSuccess true) st))
  | Fails msg =>
      apply_update (SetIsUploading false) (apply_update (SetError (Some msg)) st)
  end.

(** The state after the first three updates of a handler. *)
Definition reset (st : AppState) : AppState :=
  apply_update (SetSuccess false)
    (apply_update (SetError None) (apply_update (SetIsUploading true) st)).

(** Two URL submissions for the sample platforms. *)
Definition first_url : Submission := SubmitUrl "https://example.com/a.png".
Definition second_url : Submission := SubmitUrl "https://example.com/b.png".

(** The three shapes of the trace of a handler: the input is refused
    before anything starts; the run is aborted by a failure; the run is
    completed.  [calls] holds awaited calls only. *)
Inductive Run : list Event -> Prop :=
| Refused (msg : string) :
    Run [EvSet (SetError (Some msg))]
| Aborted (calls : list Event) (msg : string) :
    forallb is_call calls = true ->
    (existsb is_decode_failure calls = true -> existsb is_upload_call calls = false) ->
    Run (started ++ calls
         ++ [EvSet (SetError (Some msg)); EvSet (SetIsUploading false)])
| Completed (calls : list Event) (opts : UploadOptions) (image : AssetHandle)
    (altText : string) :
    forallb is_call calls = true ->
    existsb is_upload_call calls = false ->
    existsb is_insertion calls = false ->
    existsb is_decode_failure calls = false ->
    Run (started ++ calls
         ++ [EvCall (Upload opts) (Resolved image);
             EvCall (AddElement (handle_ref image) altText) (Resolved tt);
             EvCall (WhenUploaded image) (Resolved tt);
             EvSet (SetSuccess true);
             EvSet (SetImageUrl "");
             EvSet (SetIsUploading false)]).

(** ** Faulty URL input *)

(** The two faults of a typed URL: nothing but white space, and a string
    that the URL parser rejects with a [TypeError] whose message contains
    ["Invalid URL"]. *)
Inductive InputFault : Type := EmptyInput | InvalidUrl.

Fixpoint all_space (s : string) : bool :=
  match s with
  | EmptyString => true
  | String c rest => Js.is_space c && all_space rest
  end.

Definition has_fault (newURL : string -> option Thrown) (url : string)
    (fault : InputFault) : Prop :=
  match fault with
  | EmptyInput => all_space url = true
  | InvalidUrl =>
      Js.trim url <> "" /\
      exists message,
        newURL url = Some (ErrorObject true message) /\
        Js.includes message "Invalid URL" = true
  end.

Definition fault_message (fault : InputFault) : string :=
  match fault with
  | EmptyInput => formatMessage "Please enter an image URL"
  | InvalidUrl => formatMessage "Please enter a valid URL"
  end.

(** ** Reading a trace *)

(** The guards of the two handlers: the inputs refused before anything
    starts. *)
Definition refused (s : Submission) : bool :=
  match s with
  | SubmitUrl url => negb (Js.truthy (Js.trim url))
  | SubmitFile file => negb (Js.startsWith (file_type file) "image/")
  end.

(** The [onClick] callback of the button: the handler on the typed URL. *)
Definition onClick (newURL : string -> option Thrown) (st : AppState) : Async unit :=
  handleUrlUpload newURL (imageUrl st).

(** The calls whose rejection is caught where it occurs: the HEAD request
    of [getImageInfo] and the read of [getFileMimeType]. *)
Definition swallowed {X : Type} (c : Call X) : bool :=
  match c with
  | FetchHead _ => true
  | ReadAsArrayBuffer _ => true
  | _ => false
  end.

(** The first rejection of a trace that is not caught where it occurs. *)
Fixpoint aborting_rejection (tr : list Event) : option Thrown :=
  match tr with
  | [] => None
  | EvCall c (Rejected e) :: rest =>
      if swallowed c then aborting_rejection rest else Some e
  | _ :: rest => aborting_rejection rest
  end.

(** The message that the [catch] block of [handleUrlUpload] shows. *)
Definition url_catch_message (err : Thrown) : string :=
  if instanceof_TypeError err && Js.includes (thrown_message err) "Invalid URL"
  then formatMessage "Please enter a valid URL"
  else message_or err
         (formatMessage "Failed to upload image. Please check the URL and try again.").

(** The message that the [catch] block of [handleFileUpload] shows. *)
Definition file_catch_message (err : Thrown) : string :=
  message_or err (formatMessage "Failed to upload image. Please try again.").

(** The options of the calls to [upload], in order. *)
Fixpoint uploads (tr : list Event) : list UploadOptions :=
  match tr with
  | [] => []
  | EvCall (Upload opts) _ :: rest => opts :: uploads rest
  | _ :: rest => uploads rest
  end.

(** The handles that [upload] resolved to. *)
Fixpoint resolved_handles (tr : list Event) : list AssetHandle :=
  match tr with
  | [] => []
  | EvCall (Upload _) (Resolved image) :: rest => image :: resolved_handles rest
  | _ :: rest => resolved_handles rest
  end.

(** The [ref] and alternative text of the calls to [addElement]. *)
Fixpoint insertions (tr : list Event) : list (string * string) :=
  match tr with
  | [] => []
  | EvCall (AddElement ref altText) _ :: rest => (ref, altText) :: insertions rest
  | _ :: rest => insertions rest
  end.

(** The state updates of a trace, in order. *)
Fixpoint updates_of (tr : list Event) : list Update :=
  match tr with
  | [] => []
  | EvSet u :: rest => u :: updates_of rest
  | EvCall _ _ :: rest => updates_of rest
  end.

Definition is_resolved_insertion (ev : Event) : bool :=
  match ev with
  | EvCall (AddElement _ _) (Resolved _) => true
  | _ => false
  end.

Definition is_confirmation_failure (ev : Event) : bool :=
  match ev with
  | EvCall (WhenUploaded _) (Rejected _) => true
  | _ => false
  end.

Definition is_decode_call (ev : Event) : bool :=
  match ev with
  | EvCall (LoadImage _) _ => true
  | _ => false
  end.

Definition is_head_request (ev : Event) : bool :=
  match ev with
  | EvCall (FetchHead _) _ => true
  | _ => false
  end.

(** The alternative text that a submission asks for. *)
Definition alt_text_of (s : Submission) : string :=
  match s with
  | SubmitUrl _ => "uploaded image"
  | SubmitFile file => Js.or_else (file_name file) "uploaded image"
  end.

(** [EveryRun P past p]: [P] holds of the whole trace on every path of the
    task [p], whatever the awaited calls settle to; [past] holds the events
    so far, latest first. *)
Fixpoint EveryRun (P : list Event -> Prop) (past : list Event) (p : Async unit) : Prop :=
  match p with
  | Return _ => P (rev past)
  | Throw _ => P (rev past)
  | Act u k => EveryRun P (EvSet u :: past) k
  | Await c k => forall o, EveryRun P (EvCall c o :: past) (k o)
  end.

(** What the view shows: [{error && <Alert>...}] and
    [{success && <Alert>...}]; the empty string is falsy. *)
Definition error_alert (st : AppState) : option string :=
  match error st with
  | Some msg => if Js.truthy msg then Some msg else None
  | None => None
  end.

Definition success_alert (st : AppState) : bool := success st.

(** The [error] prop of the form field: [error && imageUrl ? error : undefined]. *)
Definition field_error (st : AppState) : option string :=
  match error_alert st with
  | Some msg => if Js.truthy (imageUrl st) then Some msg else None
  | None => None
  end.

(** A platform on which the upload is rejected with an [Error] that has no
    message. *)
Definition mute_upload : Oracle :=
  fun X c =>
    match c in Call X return Settled X with
    | Upload _ => Rejected (ErrorObject false "")
    | other => obliging _ other
    end.

(** A platform on which the upload is never confirmed. *)
Definition unconfirmed : Oracle :=
  fun X c =>
    match c in Call X return Settled X with
    | WhenUploaded _ => Rejected (ErrorObject false "Upload failed")
    | other => obliging _ other
    end.

(** A platform on which files cannot be read. *)
Definition unreadable : Oracle :=
  fun X c =>
    match c in Call X return Settled X with
    | ReadAsDataURL _ => Rejected OtherValue
    | ReadAsArrayBuffer _ => Rejected OtherValue
    | other => obliging _ other
    end.

(** A file that is no image. *)
Definition text_file : File :=
  {| file_name := "notes.txt"; file_type := "text/plain"; file_bytes := [] |}.

(** A state that shows the success of an earlier upload. *)
Definition succeeded_state : AppState :=
  {| imageUrl := ""; isUploading := false; error := None; success := true |}.

(** ** The app as an event system *)

(** What the user does to the three controls.  A control that is disabled
    dispatches no event: the text input and the file input carry
    [disabled={isUploading}], the button
    [disabled={isUploading || !imageUrl.trim()}]. *)
Inductive UserEvent : Type :=
| EditUrl (value : string)
| ClickUpload
| ChooseFiles (files : list File).

(** A step of the event loop: a user event, or the awaited call of the
    [i]-th handler in flight settles. *)
Inductive LoopEvent : Type :=
| User (u : UserEvent)
| Settle (i : nat).

(** A handler in flight: suspended at an [await]. *)
Record Attempt : Type := mkAttempt {
  attempt_id : nat;
  attempt_task : Async unit
}.

(** The state of the component, the handlers in flight, and two logs that
    the code does not keep: the submissions for which a handler was
    called (latest first) and the runs that have ended (latest first). *)
Record App : Type := mkApp {
  ui : AppState;
  in_flight : list Attempt;
  launched : list Submission;
  ended : list nat
}.

Definition initial_app : App :=
  {| ui := initialState; in_flight := []; launched := []; ended := [] |}.

Section EventSystem.

(** The platform's answers to the calls of the [n]-th submission. *)
Variable platform : nat -> Oracle.
Variable newURL : string -> option Thrown.

(** A handler is called: it runs to its first [await], or to its end. *)
Definition launch (s : Submission) (app : App) : App :=
  let id := List.length (launched app) in
  let '(task, st) := sync (submit newURL s) (ui app) in
  {| ui := st;
     in_flight := if pending task then (in_flight app ++ [mkAttempt id task])%list
                  else in_flight app;
     launched := s :: launched app;
     ended := if refused s || pending task then ended app else id :: ended app |}.

(** [handleFileInputChange]: the first of the chosen files, if any. *)
Definition handleFileInputChange (files : list File) (app : App) : App :=
  match files with
  | file :: _ => launch (SubmitFile file) app
  | [] => app
  end.

Definition user (u : UserEvent) (app : App) : App :=
  match u with
  | EditUrl value =>
      if inputs_disabled (ui app) then app
      else {| ui := onChange value (ui app); in_flight := in_flight app;
              launched := launched app; ended := ended app |}
  | ClickUpload =>
      if button_disabled (ui app) then app
      else launch (SubmitUrl (imageUrl (ui app))) app
  | ChooseFiles files =>
      if inputs_disabled (ui app) then app
      else handleFileInputChange files app
  end.

(** The awaited call of the [i]-th handler in flight settles; the handler
    runs on to its next [await], or to its end. *)
Definition settle (i : nat) (app : App) : App :=
  match nth_error (in_flight app) i with
  | None => app
  | Some r =>
      match resume (platform (attempt_id r)) (attempt_task r) (ui app) with
      | None => app
      | Some (task, st) =>
          if pending task then
            {| ui := st;
               in_flight := (firstn i (in_flight app)
                             ++ mkAttempt (attempt_id r) task :: skipn (S i) (in_flight app))%list;
               launched := launched app;
               ended := ended app |}
          else
            {| ui := st;
               in_flight := (firstn i (in_flight app) ++ skipn (S i) (in_flight app))%list;
               launched := launched app;
               ended := attempt_id r :: ended app |}
      end
  end.

Definition step (ev : LoopEvent) (app : App) : App :=
  match ev with
  | User u => user u app
  | Settle i => settle i app
  end.

Definition run_events (evs : list LoopEvent) : App :=
  fold_left (fun app ev => step ev app) evs initial_app.

End EventSystem.




(** The same obliging platform for every submission. *)
Definition sample_platform : nat -> Oracle := fun _ => obliging.

(** A user who types a URL, clicks, and while the upload runs clicks again,
    chooses a file and edits the URL; the platform settles four of the
    five calls of the run. *)
Definition impatient_user : list LoopEvent :=
  [User (EditUrl "https://example.com/a.png"); User ClickUpload;
   User ClickUpload; User (ChooseFiles [x_png]); User (EditUrl "https://example.com/b.png");
   Settle 0; Settle 0; Settle 0; Settle 0].

(** * Properties *)

(** ** The file sniffer *)

Lemma sniff_png (rest : list Byte.byte) :
  sniff_signature (slice8 (png_signature ++ rest)%list) = ImagePng.
Proof. reflexivity. Qed.

Lemma sniff_jpeg (rest : list Byte.byte) :
  sniff_signature (slice8 (jpeg_signature ++ rest)%list) = ImageJpeg.
Proof. reflexivity. Qed.

Lemma declared_mime_none (declared : string) :
  declared_mime declared = None ->
  String.eqb declared "image/png" = false /\
  (String.eqb declared "image/jpeg" || String.eqb declared "image/jpg") = false.
Proof.
  unfold declared_mime.
  destruct (String.eqb declared "image/png"); [discriminate|].
  destruct (_ || _); [discriminate|]. auto.
Qed.

(** C1, as the code has it: a declared type of [image/png], [image/jpeg] or
    [image/jpg] is returned as it is, whatever the bytes, and without
    reading the file: no call is awaited.  The byte signature decides only
    for the files of another (or no) declared type whose read succeeds:
    after this one read, [89 50 4E 47] gives PNG and [FF D8 FF] gives
    JPEG. *)
Theorem getFileMimeType_declared_then_signature
    (env : Oracle) (file : File) (m : MimeType) :
  declared_mime (file_type file) = Some m \/
  (declared_mime (file_type file) = None /\
   env _ (ReadAsArrayBuffer (slice8 (file_bytes file)))
     = Resolved (Some (slice8 (file_bytes file))) /\
   announced_by (file_bytes file) m) ->
  completion env (getFileMimeType file) = Fulfilled m /\
  trace env (getFileMimeType file)
  = match declared_mime (file_type file) with
    | Some _ => []
    | None =>
        [EvCall (ReadAsArrayBuffer (slice8 (file_bytes file)))
                (Resolved (Some (slice8 (file_bytes file))))]
    end.
Proof.
  intros [Hdecl | (Hnone & Hread & Hsig)].
  - rewrite Hdecl. unfold declared_mime in Hdecl. unfold getFileMimeType.
    destruct (String.eqb (file_type file) "image/png").
    + injection Hdecl as <-. split; reflexivity.
    + destruct (_ || _); [injection Hdecl as <-; split; reflexivity | discriminate].
  - rewrite Hnone. apply declared_mime_none in Hnone as [Hpng Hjpg].
    unfold getFileMimeType. rewrite Hpng, Hjpg.
    cbn. rewrite Hread. cbn. split; [|reflexivity].
    destruct m; destruct Hsig as [rest ->].
    + now rewrite sniff_jpeg.
    + now rewrite sniff_png.
Qed.

Lemma getFileMimeType_declared_then_signature_witness :
  (completion obliging (getFileMimeType mislabelled_png) = Fulfilled ImageJpeg /\
   trace obliging (getFileMimeType mislabelled_png) = []) /\
  (completion obliging (getFileMimeType x_png) = Fulfilled ImagePng /\
   trace obliging (getFileMimeType x_png)
   = [EvCall (ReadAsArrayBuffer (slice8 (file_bytes x_png)))
             (Resolved (Some (slice8 (file_bytes x_png))))]).
Proof.
  split.
  - apply (getFileMimeType_declared_then_signature obliging mislabelled_png ImageJpeg).
    left. reflexivity.
  - apply (getFileMimeType_declared_then_signature obliging x_png ImagePng).
    right. split; [reflexivity|]. split; [reflexivity|].
    cbn. eexists. reflexivity.
Defined.

(** C1 fails as stated: a file that starts with the PNG signature and is
    declared [image/jpeg] is classified JPEG, although its read succeeds. *)
Lemma declared_type_beats_signature :
  announced_by (file_bytes mislabelled_png) ImagePng /\
  obliging _ (ReadAsArrayBuffer (slice8 (file_bytes mislabelled_png)))
    = Resolved (Some (slice8 (file_bytes mislabelled_png))) /\
  completion obliging (getFileMimeType mislabelled_png) = Fulfilled ImageJpeg /\
  completion obliging (getFileMimeType mislabelled_png) <> Fulfilled ImagePng.
Proof.
  split; [cbn; eexists; reflexivity|].
  split; [reflexivity|].
  split; [reflexivity | discriminate].
Qed.

(** C9: [getFileMimeType] always resolves, also when the read fails or
    gives no buffer, and its result is ["image/png"] or ["image/jpeg"]; it
    updates no state and awaits at most the one read. *)
Theorem getFileMimeType_total (env : Oracle) (file : File) :
  exists m : MimeType,
    completion env (getFileMimeType file) = Fulfilled m /\
    (mime_string m = "image/png" \/ mime_string m = "image/jpeg") /\
    (trace env (getFileMimeType file) = [] \/
     exists o, trace env (getFileMimeType file)
               = [EvCall (ReadAsArrayBuffer (slice8 (file_bytes file))) o]).
Proof.
  unfold getFileMimeType, completion, trace.
  destruct (String.eqb (file_type file) "image/png").
  { exists ImagePng. cbn. auto. }
  destruct (_ || _).
  { exists ImageJpeg. cbn. auto. }
  cbn.
  destruct (env _ (ReadAsArrayBuffer (slice8 (file_bytes file)))) as [[buf|]|reason] eqn:Hread;
    cbn.
  - exists (sniff_signature buf).
    split; [reflexivity|]. split; [destruct (sniff_signature buf); cbn; auto|].
    right. eexists. reflexivity.
  - exists ImageJpeg. split; [reflexivity|]. split; [cbn; auto|].
    right. eexists. reflexivity.
  - exists ImageJpeg. split; [reflexivity|]. split; [cbn; auto|].
    right. eexists. reflexivity.
Qed.

(** The read that fails, and the read without a buffer, give JPEG. *)
Lemma getFileMimeType_read_failure (env : Oracle) (file : File) :
  declared_mime (file_type file) = None ->
  (env _ (ReadAsArrayBuffer (slice8 (file_bytes file))) = Resolved None \/
   exists reason,
     env _ (ReadAsArrayBuffer (slice8 (file_bytes file))) = Rejected reason) ->
  completion env (getFileMimeType file) = Fulfilled ImageJpeg.
Proof.
  intros Hnone Hread. apply declared_mime_none in Hnone as [Hpng Hjpg].
  unfold getFileMimeType, completion. rewrite Hpng, Hjpg. cbn.
  destruct Hread as [-> | [reason ->]]; reflexivity.
Qed.

(** ** The text input *)

(** C8: an edit of the URL input clears the error and the success
    indicator and keeps the typed value; the busy flag is not touched. *)
Theorem onChange_clears_indicators_keeps_value (value : string) (st : AppState) :
  error (onChange value st) = None /\
  success (onChange value st) = false /\
  imageUrl (onChange value st) = value /\
  isUploading (onChange value st) = isUploading st.
Proof. repeat split. Qed.

(** ** Data URLs *)

Lemma not_semicolon_run_token (t tail : string) :
  occurs ";" t = false ->
  tail = "" \/ (exists r, tail = String ";" r) ->
  Js.not_semicolon_run (t ++ tail) = t.
Proof.
  intros Ht Htail. induction t as [|c t IH]; cbn in *.
  - destruct Htail as [-> | [r ->]]; reflexivity.
  - apply orb_false_iff in Ht as [Hc Ht].
    rewrite Hc. f_equal. now apply IH.
Qed.

Lemma prefix_empty (s : string) : String.prefix "" s = true.
Proof. destruct s; reflexivity. Qed.

(** The token between the leading ["data:"] and the first [';'] (or the end
    of the string) is what the pattern captures, when there is one. *)
Lemma match_data_prefix_token (t tail : string) :
  t <> "" ->
  occurs ";" t = false ->
  tail = "" \/ (exists r, tail = String ";" r) ->
  Js.match_data ("data:" ++ t ++ tail) = Some t.
Proof.
  intros Hne Ht Htail. cbn.
  rewrite prefix_empty, (not_semicolon_run_token t tail Ht Htail).
  destruct t; [contradiction | reflexivity].
Qed.

(** The three tokens that the code names, and every other token. *)
Lemma data_url_png (rest : string) :
  data_url_mime ("data:image/png;" ++ rest) = ImagePng.
Proof. reflexivity. Qed.

Lemma data_url_jpeg (rest : string) :
  data_url_mime ("data:image/jpeg;" ++ rest) = ImageJpeg /\
  data_url_mime ("data:image/jpg;" ++ rest) = ImageJpeg.
Proof. split; reflexivity. Qed.

Lemma data_url_other_token (t tail : string) :
  t <> "" ->
  occurs ";" t = false ->
  tail = "" \/ (exists r, tail = String ";" r) ->
  t <> "image/png" ->
  data_url_mime ("data:" ++ t ++ tail) = ImageJpeg.
Proof.
  intros Hne Ht Htail Hpng. unfold data_url_mime.
  rewrite (match_data_prefix_token t tail Hne Ht Htail).
  destruct (String.eqb_spec t "image/png"); [contradiction|].
  destruct (_ || _); reflexivity.
Qed.

Lemma data_url_no_match (url : string) :
  Js.match_data url = None -> data_url_mime url = ImageJpeg.
Proof. unfold data_url_mime. now intros ->. Qed.

(** C7 at the input where the code departs from it: the data URL has no
    MIME token after ["data:"], the unanchored pattern finds ["data:"] again
    in the payload, and the image is classified PNG. *)
Theorem data_url_pattern_matches_payload :
  Js.startsWith tokenless_data_url "data:" = true /\
  Js.not_semicolon_run (Js.drop5 tokenless_data_url) = "" /\
  Js.match_data tokenless_data_url = Some "image/png" /\
  completion obliging (getImageInfo tokenless_data_url)
  = Fulfilled (mkImageInfo 2 3 ImagePng).
Proof. repeat split. Qed.

(** ** Remote URLs *)

Lemma split_without_separator (c : ascii) (s : string) :
  occurs c s = false -> Js.split c s = [s].
Proof.
  induction s as [|a s IH]; cbn; [reflexivity|].
  intros H. apply orb_false_iff in H as [Ha Hs].
  rewrite Ha, (IH Hs). reflexivity.
Qed.

Lemma split_with_separator (c : ascii) (s : string) :
  occurs c s = true -> exists x y l, Js.split c s = x :: y :: l.
Proof.
  induction s as [|a s IH]; cbn; [discriminate|].
  destruct (Ascii.eqb a c); cbn.
  - intros _. destruct (occurs c s) eqn:Hs.
    + destruct (IH eq_refl) as (x & y & l & ->). eauto.
    + rewrite (split_without_separator c s Hs). eauto.
  - intros Hs. destruct (IH Hs) as (x & y & l & ->). eauto.
Qed.

Lemma occurs_app (c : ascii) (s t : string) :
  occurs c (s ++ t) = occurs c s || occurs c t.
Proof.
  induction s as [|a s IH]; cbn; [reflexivity|].
  now rewrite IH, orb_assoc.
Qed.

Lemma last_nonempty {A : Type} (x : A) (l : list A) (d d' : A) :
  last (x :: l) d = last (x :: l) d'.
Proof.
  revert x. induction l as [|y l IH]; intros x; [reflexivity|].
  change (last (y :: l) d = last (y :: l) d'). apply IH.
Qed.

Lemma pop_cons (z x : string) (l : list string) :
  Js.pop (z :: x :: l) = Js.pop (x :: l).
Proof.
  unfold Js.pop. f_equal.
  change (last (x :: l) z = last l x).
  destruct l as [|y l]; [reflexivity|].
  change (last (y :: l) z = last (y :: l) x). apply last_nonempty.
Qed.

(** The last segment of [stem.tail] is [tail] when [tail] has no dot. *)
Lemma pop_split_last_dot (stem tail : string) :
  occurs "." tail = false ->
  Js.pop (Js.split "." (stem ++ String "." tail)) = Some tail.
Proof.
  intros Htail. induction stem as [|a stem IH].
  - cbn. now rewrite (split_without_separator _ _ Htail).
  - assert (Hocc : occurs "." (stem ++ String "." tail) = true).
    { rewrite occurs_app. cbn. apply orb_true_r. }
    destruct (split_with_separator _ _ Hocc) as (x & y & l & Hsplit).
    rewrite Hsplit in IH.
    change (String a stem ++ String "." tail)
      with (String a (stem ++ String "." tail)).
    cbn [Js.split]. rewrite Hsplit.
    destruct (Ascii.eqb a "."); rewrite <- IH, !pop_cons; reflexivity.
Qed.

Lemma toLowerCase_app (s t : string) :
  Js.toLowerCase (s ++ t) = Js.toLowerCase s ++ Js.toLowerCase t.
Proof.
  induction s as [|a s IH]; cbn; [reflexivity | now rewrite IH].
Qed.

Lemma lower_unit_dot (c : ascii) :
  Js.lower_unit c <> "."%char -> c <> "."%char.
Proof. intros H ->. now apply H. Qed.

Lemma png_has_no_dot (ext : string) :
  Js.toLowerCase ext = "png" -> occurs "." ext = false.
Proof.
  destruct ext as [|a [|b [|c [|d ext]]]]; try discriminate.
  cbn. intros H. injection H as Ha Hb Hc.
  assert (a <> "."%char) by (apply lower_unit_dot; rewrite Ha; discriminate).
  assert (b <> "."%char) by (apply lower_unit_dot; rewrite Hb; discriminate).
  assert (c <> "."%char) by (apply lower_unit_dot; rewrite Hc; discriminate).
  repeat match goal with
         | H : ?x <> _ |- context [Ascii.eqb ?x ?y] =>
             destruct (Ascii.eqb_spec x y); [contradiction|]
         end.
  reflexivity.
Qed.

(** The extension of [stem.ext] followed by a query without dot. *)
Lemma url_extension_png (stem ext query : string) :
  Js.toLowerCase ext = "png" ->
  occurs "." query = false ->
  query = "" \/ (exists q, query = String "?" q) ->
  url_extension (stem ++ "." ++ ext ++ query) = Some "png".
Proof.
  intros Hext Hdot Hquery. unfold url_extension.
  change (stem ++ "." ++ ext ++ query) with (stem ++ String "." (ext ++ query)).
  rewrite pop_split_last_dot.
  - rewrite toLowerCase_app, Hext.
    destruct Hquery as [-> | [q ->]]; cbn; [reflexivity|].
    destruct (Js.split "?" (Js.toLowerCase q)); reflexivity.
  - rewrite occurs_app, Hdot, (png_has_no_dot ext Hext). reflexivity.
Qed.

(** C3, as the code has it: the extension decides only when the HEAD
    request fails.  Then a remote URL that ends in [.png] (in any letter
    case), alone or followed by a query string without dot, is classified
    PNG. *)
Theorem extension_fallback_when_head_fails
    (env : Oracle) (url stem ext query : string) (reason : Thrown) (w h : Z) :
  url = stem ++ "." ++ ext ++ query ->
  Js.startsWith url "data:" = false ->
  Js.toLowerCase ext = "png" ->
  occurs "." query = false ->
  query = "" \/ (exists q, query = String "?" q) ->
  env _ (FetchHead url) = Rejected reason ->
  env _ (LoadImage url) = Resolved (w, h) ->
  completion env (getImageInfo url) = Fulfilled (mkImageInfo w h ImagePng).
Proof.
  intros Hurl Hdata Hext Hdot Hquery Hhead Hload.
  assert (Hmime : extension_mime url = ImagePng).
  { unfold extension_mime. rewrite Hurl, (url_extension_png stem ext query Hext Hdot Hquery).
    reflexivity. }
  unfold getImageInfo, completion. rewrite Hdata. cbn.
  rewrite Hhead. cbn. rewrite Hload. cbn. now rewrite Hmime.
Qed.

Lemma extension_fallback_when_head_fails_witness :
  completion offline_head (getImageInfo "https://example.com/a.PNG?x=1")
  = Fulfilled (mkImageInfo 2 3 ImagePng).
Proof.
  apply (extension_fallback_when_head_fails offline_head
           "https://example.com/a.PNG?x=1" "https://example.com/a" "PNG" "?x=1"
           (ErrorObject true "Failed to fetch") 2 3).
  - reflexivity.
  - reflexivity.
  - reflexivity.
  - reflexivity.
  - right. eexists. reflexivity.
  - reflexivity.
  - reflexivity.
Defined.

(** C3 fails as stated: when the HEAD request succeeds and its response
    has no [content-type] header, the extension is not looked at and the
    image is classified JPEG. *)
Lemma no_content_type_header_gives_jpeg :
  Js.startsWith png_query_url "data:" = false /\
  obliging _ (FetchHead png_query_url) = Resolved None /\
  completion obliging (getImageInfo png_query_url)
  = Fulfilled (mkImageInfo 2 3 ImageJpeg) /\
  completion obliging (getImageInfo png_query_url)
  <> Fulfilled (mkImageInfo 2 3 ImagePng).
Proof. repeat split. discriminate. Qed.

(** A header that names neither format gives JPEG, whatever the extension. *)
Lemma head_response_decides (env : Oracle) (url : string)
    (contentType : option string) (w h : Z) :
  Js.startsWith url "data:" = false ->
  env _ (FetchHead url) = Resolved contentType ->
  env _ (LoadImage url) = Resolved (w, h) ->
  completion env (getImageInfo url)
  = Fulfilled (mkImageInfo w h (content_type_mime contentType)).
Proof.
  intros Hdata Hhead Hload.
  unfold getImageInfo, completion. rewrite Hdata. cbn.
  rewrite Hhead. cbn. rewrite Hload. reflexivity.
Qed.

(** ** Traces and states *)

Local Open Scope list_scope.

Lemma replay_app (tr1 tr2 : list Event) (st : AppState) :
  replay (tr1 ++ tr2) st = replay tr2 (replay tr1 st).
Proof.
  revert st. induction tr1 as [|[u|X c o] tr1 IH]; intros st; cbn; auto.
Qed.

Lemma replay_calls (calls : list Event) (st : AppState) :
  forallb is_call calls = true -> replay calls st = st.
Proof.
  induction calls as [|[u|X c o] calls IH]; cbn; intros H; auto; discriminate.
Qed.

Lemma calls_set_no_success (calls : list Event) :
  forallb is_call calls = true -> existsb is_success_set calls = false.
Proof.
  induction calls as [|[u|X c o] calls IH]; cbn; intros H; auto; discriminate.
Qed.

Lemma existsb_rev {A : Type} (f : A -> bool) (l : list A) :
  existsb f (rev l) = existsb f l.
Proof.
  induction l as [|a l IH]; cbn; [reflexivity|].
  rewrite existsb_app, IH. cbn. rewrite orb_false_r. apply orb_comm.
Qed.

Lemma no_upload_call_count (tr : list Event) :
  existsb is_upload_call tr = false -> upload_calls tr = 0.
Proof.
  unfold upload_calls. induction tr as [|ev tr IH]; cbn; [reflexivity|].
  destruct (is_upload_call ev); cbn; [discriminate | exact IH].
Qed.

(** ** The shape of the handlers *)

Ltac spine :=
  cbn -[Js.trim Js.startsWith Js.includes Js.or_else String.eqb
        data_url_mime content_type_mime extension_mime sniff_signature
        message_or formatMessage instanceof_TypeError thrown_message].

Ltac pipeline_leaf :=
  first
    [ eapply Pipeline_success; [reflexivity | reflexivity | reflexivity | reflexivity]
    | apply Pipeline_failure; cbn; solve [ discriminate | intros; reflexivity ] ].

(** Walk through the tree of a handler: every await settles both ways. *)
Ltac pipeline :=
  repeat (spine;
          first
            [ pipeline_leaf
            | apply Pipeline_await; intros [?|?]
            | match goal with
              | x : unit |- _ => destruct x
              end
            | match goal with
              | |- context [match ?x with _ => _ end] => destruct x
              end ]).

Lemma handleUrlUpload_pipeline (newURL : string -> option Thrown) (url : string) :
  Js.truthy (Js.trim url) = true ->
  exists body,
    handleUrlUpload newURL url
    = Act (SetIsUploading true) (Act (SetError None) (Act (SetSuccess false) body)) /\
    Pipeline [] body.
Proof.
  intros Hurl. unfold handleUrlUpload. rewrite Hurl.
  eexists. split; [reflexivity|].
  unfold validate_url, getImageInfo, load_dimensions.
  pipeline.
Qed.

Lemma handleFileUpload_pipeline (file : File) :
  Js.startsWith (file_type file) "image/" = true ->
  exists body,
    handleFileUpload file
    = Act (SetIsUploading true) (Act (SetError None) (Act (SetSuccess false) body)) /\
    Pipeline [] body.
Proof.
  intros Htype. unfold handleFileUpload. rewrite Htype.
  eexists. split; [reflexivity|].
  unfold getFileMimeType, getImageInfo, load_dimensions.
  pipeline.
Qed.

(** Either the handler refuses its input with one update, or it starts and
    runs a pipeline. *)
Lemma submit_pipeline (newURL : string -> option Thrown) (s : Submission) :
  (exists msg, submit newURL s = set (SetError (Some msg))) \/
  (exists body,
     submit newURL s
     = Act (SetIsUploading true) (Act (SetError None) (Act (SetSuccess false) body)) /\
     Pipeline [] body).
Proof.
  destruct s as [url | file]; cbn.
  - destruct (Js.truthy (Js.trim url)) eqn:Hurl.
    + right. now apply handleUrlUpload_pipeline.
    + left. unfold handleUrlUpload. rewrite Hurl. cbn. eauto.
  - destruct (Js.startsWith (file_type file) "image/") eqn:Htype.
    + right. now apply handleFileUpload_pipeline.
    + left. unfold handleFileUpload. rewrite Htype. cbn. eauto.
Qed.

(** The trace of a pipeline: calls, then the closing updates. *)
Lemma pipeline_run (env : Oracle) (past : list Event) (p : Async unit) :
  Pipeline past p ->
  exists calls,
    forallb is_call calls = true /\
    ((exists msg,
        trace env p
        = calls ++ [EvSet (SetError (Some msg)); EvSet (SetIsUploading false)] /\
        (existsb is_decode_failure (rev calls ++ past) = true ->
         existsb is_upload_call (rev calls ++ past) = false)) \/
     (exists older opts image altText,
        trace env p
        = calls ++ [EvSet (SetSuccess true); EvSet (SetImageUrl "");
                    EvSet (SetIsUploading false)] /\
        rev calls ++ past
        = EvCall (WhenUploaded image) (Resolved tt)
          :: EvCall (AddElement (handle_ref image) altText) (Resolved tt)
          :: EvCall (Upload opts) (Resolved image)
          :: older /\
        existsb is_upload_call older = false /\
        existsb is_insertion older = false /\
        existsb is_decode_failure older = false)).
Proof.
  induction 1 as [past X c k _ IH | past msg Hdecode
                 | past older opts image altText Hpast Hup Hins Hdec].
  - destruct (IH (env _ c)) as (calls & Hcalls & Hrun).
    exists (EvCall c (env _ c) :: calls). split; [exact Hcalls|].
    cbn [rev trace]. rewrite <- !app_assoc. cbn [app].
    destruct Hrun as [(msg & -> & Hdecode) | (older & opts & image & alt & -> & Hrest)].
    + left. exists msg. split; [reflexivity | exact Hdecode].
    + right. exists older, opts, image, alt. split; [reflexivity | exact Hrest].
  - exists []. split; [reflexivity|]. left. exists msg. split; [reflexivity | exact Hdecode].
  - exists []. split; [reflexivity|]. right. exists older, opts, image, altText.
    repeat split; assumption.
Qed.

(** Every run of a handler has one of the three shapes. *)
Lemma submit_run (newURL : string -> option Thrown) (env : Oracle) (s : Submission) :
  Run (trace env (submit newURL s)).
Proof.
  destruct (submit_pipeline newURL s) as [[msg ->] | (body & -> & Hbody)].
  - apply Refused.
  - destruct (pipeline_run env [] body Hbody) as (calls & Hcalls & Hrun).
    rewrite app_nil_r in Hrun.
    change (trace env (Act (SetIsUploading true)
                         (Act (SetError None) (Act (SetSuccess false) body))))
      with (started ++ trace env body).
    destruct Hrun as [(msg & -> & Hdecode)
                     | (older & opts & image & alt & -> & Hrev & Hup & Hins & Hdec)].
    + apply Aborted; [exact Hcalls|]. now rewrite !existsb_rev in Hdecode.
    + assert (Hcalls' : calls = rev older
                ++ [EvCall (Upload opts) (Resolved image);
                    EvCall (AddElement (handle_ref image) alt) (Resolved tt);
                    EvCall (WhenUploaded image) (Resolved tt)]).
      { rewrite <- (rev_involutive calls), Hrev. cbn. now rewrite <- !app_assoc. }
      subst calls. rewrite <- app_assoc. cbn [app].
      rewrite forallb_app in Hcalls. apply andb_true_iff in Hcalls as [Hcalls _].
      apply Completed; rewrite ?existsb_rev; assumption.
Qed.

(** ** Single runs of the handlers *)

Ltac run_shape newURL env s :=
  unfold final_state;
  let H := fresh "Hrun" in
  pose proof (submit_run newURL env s) as H;
  destruct H as [msg | calls msg Hcalls Hdecode
                | calls opts image altText Hcalls Hup Hins Hdec].

(** C4: in a run where the image does not decode, [upload] is not called
    and the run ends with an error message, no success and the busy flag
    down. *)
Theorem decode_failure_aborts_before_upload
    (newURL : string -> option Thrown) (env : Oracle) (s : Submission)
    (st : AppState) :
  existsb is_decode_failure (trace env (submit newURL s)) = true ->
  upload_calls (trace env (submit newURL s)) = 0 /\
  (exists msg, error (final_state env (submit newURL s) st) = Some msg) /\
  success (final_state env (submit newURL s) st) = false /\
  isUploading (final_state env (submit newURL s) st) = false.
Proof.
  run_shape newURL env s.
  - cbn. discriminate.
  - rewrite !existsb_app. cbn. rewrite orb_false_r. intros Hfail.
    split.
    + apply no_upload_call_count. rewrite !existsb_app. cbn.
      now rewrite (Hdecode Hfail).
    + rewrite !replay_app, (replay_calls calls _ Hcalls). cbn. eauto.
  - rewrite !existsb_app, Hdec. cbn. discriminate.
Qed.

Lemma decode_failure_aborts_before_upload_witness :
  upload_calls
    (trace undecodable (submit sample_newURL (SubmitUrl "https://example.com/a.png"))) = 0 /\
  (exists msg,
     error (final_state undecodable
              (submit sample_newURL (SubmitUrl "https://example.com/a.png"))
              initialState) = Some msg) /\
  success (final_state undecodable
             (submit sample_newURL (SubmitUrl "https://example.com/a.png"))
             initialState) = false /\
  isUploading (final_state undecodable
                 (submit sample_newURL (SubmitUrl "https://example.com/a.png"))
                 initialState) = false.
Proof.
  apply (decode_failure_aborts_before_upload sample_newURL undecodable
           (SubmitUrl "https://example.com/a.png") initialState).
  reflexivity.
Defined.

(** C5: a run that sets the success indicator ends with [upload] resolved
    to a handle, [addElement] called on the [ref] of that handle,
    [whenUploaded] of that handle resolved, and only then the success
    update; before these there is no insertion, no upload and no success
    update. *)
Theorem success_after_upload_insertion_confirmation
    (newURL : string -> option Thrown) (env : Oracle) (s : Submission) :
  existsb is_success_set (trace env (submit newURL s)) = true ->
  exists before opts image altText,
    trace env (submit newURL s)
    = before ++ [EvCall (Upload opts) (Resolved image);
                 EvCall (AddElement (handle_ref image) altText) (Resolved tt);
                 EvCall (WhenUploaded image) (Resolved tt);
                 EvSet (SetSuccess true);
                 EvSet (SetImageUrl "");
                 EvSet (SetIsUploading false)] /\
    existsb is_insertion before = false /\
    upload_calls before = 0 /\
    existsb is_success_set before = false.
Proof.
  run_shape newURL env s.
  - cbn. discriminate.
  - rewrite !existsb_app, (calls_set_no_success calls Hcalls). cbn. discriminate.
  - intros _. exists (started ++ calls), opts, image, altText.
    split; [now rewrite <- app_assoc|].
    split; [rewrite existsb_app; cbn; exact Hins|].
    split.
    + apply no_upload_call_count. rewrite existsb_app. cbn. exact Hup.
    + rewrite existsb_app. cbn. now apply calls_set_no_success.
Qed.

Lemma success_after_upload_insertion_confirmation_witness :
  exists before opts image altText,
    trace obliging (submit sample_newURL (SubmitUrl "https://example.com/a.png"))
    = before ++ [EvCall (Upload opts) (Resolved image);
                 EvCall (AddElement (handle_ref image) altText) (Resolved tt);
                 EvCall (WhenUploaded image) (Resolved tt);
                 EvSet (SetSuccess true);
                 EvSet (SetImageUrl "");
                 EvSet (SetIsUploading false)] /\
    existsb is_insertion before = false /\
    upload_calls before = 0 /\
    existsb is_success_set before = false.
Proof.
  apply (success_after_upload_insertion_confirmation sample_newURL obliging
           (SubmitUrl "https://example.com/a.png")).
  reflexivity.
Defined.

(** C10: a run of either handler that sets the success indicator leaves
    the URL input empty, whatever had been typed. *)
Theorem success_clears_url_input
    (newURL : string -> option Thrown) (env : Oracle) (s : Submission)
    (st : AppState) :
  existsb is_success_set (trace env (submit newURL s)) = true ->
  imageUrl (final_state env (submit newURL s) st) = "" /\
  success (final_state env (submit newURL s) st) = true.
Proof.
  run_shape newURL env s.
  - cbn. discriminate.
  - rewrite !existsb_app, (calls_set_no_success calls Hcalls). cbn. discriminate.
  - intros _. rewrite !replay_app, (replay_calls calls _ Hcalls). cbn. auto.
Qed.

Lemma success_clears_url_input_witness :
  imageUrl (final_state obliging (submit sample_newURL (SubmitFile x_png)) typed_state)
  = ""%string /\
  success (final_state obliging (submit sample_newURL (SubmitFile x_png)) typed_state)
  = true.
Proof.
  apply (success_clears_url_input sample_newURL obliging (SubmitFile x_png) typed_state).
  reflexivity.
Defined.

(** ** Faulty input of [handleUrlUpload] *)

Lemma trimStart_all_space (s : string) :
  all_space s = true -> Js.trimStart s = ""%string.
Proof.
  induction s as [|c s IH]; cbn; [reflexivity|].
  intros H. apply andb_true_iff in H as [Hc Hs]. rewrite Hc. now apply IH.
Qed.

Lemma trim_all_space (s : string) : all_space s = true -> Js.trim s = ""%string.
Proof. intros H. unfold Js.trim. now rewrite (trimStart_all_space s H). Qed.

(** C6: a URL of white space only is refused with the message for an
    empty input, and a URL that the parser rejects ends the run with the
    message for an invalid URL; in both cases no call has been awaited:
    no request, no decode, no upload.  The two messages differ. *)
Theorem faulty_url_input_fails_before_any_call
    (newURL : string -> option Thrown) (env : Oracle) (url : string)
    (fault : InputFault) (st : AppState) :
  has_fault newURL url fault ->
  filter is_call (trace env (handleUrlUpload newURL url)) = [] /\
  error (final_state env (handleUrlUpload newURL url) st) = Some (fault_message fault) /\
  fault_message EmptyInput <> fault_message InvalidUrl.
Proof.
  intros Hfault. unfold final_state, handleUrlUpload.
  destruct fault; cbn in Hfault.
  - rewrite (trim_all_space url Hfault). cbn.
    repeat split. discriminate.
  - destruct Hfault as (Htrim & message & Hparse & Hmsg).
    destruct (Js.trim url) eqn:Ht; [contradiction|].
    unfold validate_url. rewrite Hparse.
    cbn -[Js.includes]. rewrite Hmsg. cbn.
    repeat split. discriminate.
Qed.

Lemma faulty_url_input_fails_before_any_call_witness :
  filter is_call (trace obliging (handleUrlUpload sample_newURL "not a url")) = [] /\
  error (final_state obliging (handleUrlUpload sample_newURL "not a url") initialState)
  = Some (fault_message InvalidUrl) /\
  fault_message EmptyInput <> fault_message InvalidUrl.
Proof.
  apply (faulty_url_input_fails_before_any_call sample_newURL obliging
           "not a url" InvalidUrl initialState).
  cbn. split; [discriminate|].
  eexists. split; reflexivity.
Defined.

(** Whatever the URL parser throws, the run ends with an error before any
    call is awaited. *)
Lemma rejected_url_fails_before_any_call
    (newURL : string -> option Thrown) (env : Oracle) (url : string)
    (e : Thrown) (st : AppState) :
  Js.trim url <> ""%string ->
  newURL url = Some e ->
  filter is_call (trace env (handleUrlUpload newURL url)) = [] /\
  (exists msg, error (final_state env (handleUrlUpload newURL url) st) = Some msg) /\
  isUploading (final_state env (handleUrlUpload newURL url) st) = false.
Proof.
  intros Htrim Hparse. unfold final_state, handleUrlUpload, validate_url.
  destruct (Js.trim url) eqn:Ht; [contradiction|]. rewrite Hparse.
  cbn -[Js.includes].
  destruct (instanceof_TypeError e && Js.includes (thrown_message e) "Invalid URL");
    cbn; eauto.
Qed.

(** The empty string and a string of blanks are refused as well. *)
Lemma blank_url_refused (newURL : string -> option Thrown) (env : Oracle) :
  trace env (handleUrlUpload newURL "")
  = [EvSet (SetError (Some "Please enter an image URL"%string))] /\
  trace env (handleUrlUpload newURL "   ")
  = [EvSet (SetError (Some "Please enter an image URL"%string))].
Proof. split; reflexivity. Qed.

(** ** One submission at a time *)

Lemma sync_pending (p : Async unit) (st : AppState) :
  pending p = true -> sync p st = (p, st).
Proof. destruct p; cbn; intros H; (discriminate || reflexivity). Qed.

Lemma sync_writes_only (env : Oracle) (p : Async unit) (st : AppState) :
  WritesOnly p -> sync p st = (Return tt, effect env p st).
Proof.
  revert st. induction p as [[] | e | u k IH | X c k _]; intros st H; cbn in *.
  - reflexivity.
  - contradiction.
  - now apply IH.
  - contradiction.
Qed.

Lemma quiet_not_pending (p : Async unit) :
  Quiet p -> pending p = false -> WritesOnly p.
Proof. destruct p; cbn; intros H Hp; (discriminate || exact H). Qed.

Lemma pipeline_quiet (past : list Event) (p : Async unit) :
  Pipeline past p -> Quiet p.
Proof.
  induction 1 as [past X c k _ IH | past msg _ | past older opts image alt _ _ _ _]; cbn; auto.
Qed.

(** The updates of a pipeline are those of its closing. *)
Lemma pipeline_effect (env : Oracle) (past : list Event) (p : Async unit) :
  Pipeline past p -> exists c, forall st, effect env p st = close c st.
Proof.
  intros Hp. unfold effect.
  destruct (pipeline_run env past p Hp) as (calls & Hcalls & Hrun).
  destruct Hrun as [(msg & -> & _) | (older & opts & image & alt & -> & _)].
  - exists (Fails msg). intros st.
    rewrite replay_app, (replay_calls calls st Hcalls). reflexivity.
  - exists Succeeds. intros st.
    rewrite replay_app, (replay_calls calls st Hcalls). reflexivity.
Qed.


(** The outcome of a started handler on its own. *)
Lemma outcome_started (env : Oracle) (h body : Async unit) (c : Closing) :
  h = Act (SetIsUploading true) (Act (SetError None) (Act (SetSuccess false) body)) ->
  (forall st, effect env body st = close c st) ->
  outcome env h = match c with
                  | Succeeds => (None, true)
                  | Fails msg => (Some msg, false)
                  end.
Proof.
  intros -> Hc. unfold outcome, final_state. cbn [trace replay].
  change (replay (trace env body) ?s) with (effect env body s).
  rewrite Hc. destruct c; reflexivity.
Qed.












(** The impatient user: the second click, the chosen file and the edit
    made while the upload runs start nothing and change nothing; one
    submission has been made when the run ends, and its success shows. *)
Lemma impatient_user_is_ignored :
  run_events sample_platform sample_newURL
    [User (EditUrl "https://example.com/a.png"); User ClickUpload;
     User ClickUpload; User (ChooseFiles [x_png]);
     User (EditUrl "https://example.com/b.png")]
  = run_events sample_platform sample_newURL
      [User (EditUrl "https://example.com/a.png"); User ClickUpload] /\
  launched (step sample_platform sample_newURL (Settle 0)
              (run_events sample_platform sample_newURL impatient_user))
  = [SubmitUrl "https://example.com/a.png"] /\
  ui (step sample_platform sample_newURL (Settle 0)
        (run_events sample_platform sample_newURL impatient_user))
  = succeeded_state.
Proof. repeat split. Qed.

(** What the view does instead: while a handler is suspended the busy
    flag is up, so the button and both inputs are disabled. *)
Lemma controls_disabled_while_suspended
    (newURL : string -> option Thrown) (s : Submission) (st : AppState) :
  pending (fst (sync (submit newURL s) st)) = true ->
  inputs_disabled (snd (sync (submit newURL s) st)) = true /\
  button_disabled (snd (sync (submit newURL s) st)) = true.
Proof.
  destruct (submit_pipeline newURL s) as [[msg ->] | (body & -> & Hbody)].
  - cbn. discriminate.
  - cbn [sync]. fold (reset st).
    destruct (pending body) eqn:Hpend.
    + rewrite (sync_pending _ _ Hpend). intros _. split; reflexivity.
    + rewrite (sync_writes_only obliging _ _
                 (quiet_not_pending _ (pipeline_quiet _ _ Hbody) Hpend)).
      cbn. discriminate.
Qed.

(** * Further properties *)

(** ** Walking through every run of a handler *)

Lemma every_run (env : Oracle) (P : list Event -> Prop) (p : Async unit) :
  forall past, EveryRun P past p -> P (rev past ++ trace env p).
Proof.
  induction p as [a | e | u k IH | X c k IH]; intros past H; cbn in *.
  - now rewrite app_nil_r.
  - now rewrite app_nil_r.
  - specialize (IH _ H). cbn in IH. now rewrite <- app_assoc in IH.
  - specialize (IH _ _ (H (env _ c))). cbn in IH. now rewrite <- app_assoc in IH.
Qed.

Ltac resolve_ifs :=
  repeat match goal with
         | H : ?c = _ |- context [if ?c then _ else _] => rewrite H
         end.

(** Walk through the tree of a handler with the events so far. *)
Ltac walk leaf :=
  repeat (spine;
          first
            [ match goal with
              | |- forall o : Settled _, _ => intros [?|?]
              end
            | match goal with
              | x : unit |- _ => destruct x
              end
            | match goal with
              | |- EveryRun _ _ ?p =>
                  match p with
                  | context [match ?x with _ => _ end] => destruct x eqn:?
                  end
              end
            | progress leaf ]).

(** Walk through one run: ask the platform at every await. *)
Ltac settle env leaf :=
  repeat (spine;
          first
            [ match goal with
              | H : Resolved _ = Rejected _ |- _ => discriminate H
              | H : Rejected _ = Resolved _ |- _ => discriminate H
              | H : Resolved _ = Resolved _ |- _ => injection H as ?; subst
              | H : Rejected _ = Rejected _ |- _ => injection H as ?; subst
              end
            | match goal with
              | |- context [env ?X ?c] => destruct (env X c) as [?|?] eqn:?
              end
            | match goal with
              | x : unit |- _ => destruct x
              end
            | match goal with
              | |- context [match ?x with _ => _ end] => destruct x eqn:?
              end
            | progress leaf ]).

(** ** What a run reports *)

(** X1: an input that a handler refuses (a URL of white space, a file
    whose type does not start with [image/]) makes no call and changes
    nothing but the error: the busy flag, the typed URL and a success shown
    before stay as they were. *)
Theorem refused_input_changes_only_error
    (newURL : string -> option Thrown) (env : Oracle) (s : Submission)
    (st : AppState) :
  refused s = true ->
  filter is_call (trace env (submit newURL s)) = [] /\
  exists msg,
    final_state env (submit newURL s) st
    = {| imageUrl := imageUrl st; isUploading := isUploading st;
         error := Some msg; success := success st |}.
Proof.
  destruct s as [url | file]; cbn [refused submit]; intros Href;
    unfold final_state, handleUrlUpload, handleFileUpload; rewrite Href; cbn; eauto.
Qed.

Lemma refused_input_changes_only_error_witness :
  filter is_call (trace obliging (submit sample_newURL (SubmitFile text_file))) = [] /\
  exists msg,
    final_state obliging (submit sample_newURL (SubmitFile text_file)) succeeded_state
    = {| imageUrl := imageUrl succeeded_state;
         isUploading := isUploading succeeded_state;
         error := Some msg;
         success := success succeeded_state |}.
Proof.
  apply (refused_input_changes_only_error sample_newURL obliging
           (SubmitFile text_file) succeeded_state).
  reflexivity.
Defined.

Lemma trimEnd_nonspace_head (c : ascii) (s : string) :
  Js.is_space c = false -> Js.trimEnd (String c s) <> ""%string.
Proof.
  intros Hc. cbn. destruct (Js.trimEnd s); [rewrite Hc|]; discriminate.
Qed.

Lemma trim_empty_all_space (s : string) :
  Js.trim s = ""%string -> all_space s = true.
Proof.
  unfold Js.trim. induction s as [|c s IH]; [reflexivity|].
  cbn [Js.trimStart all_space]. destruct (Js.is_space c) eqn:Hc.
  - intros H. now rewrite (IH H).
  - intros H. now apply trimEnd_nonspace_head in H.
Qed.

(** X2: [handleUrlUpload] answers with the message for an empty input,
    and nothing else, exactly for the URLs that consist of white space
    (the empty string among them). *)
Theorem blank_refusal_iff_white_space
    (newURL : string -> option Thrown) (env : Oracle) (url : string) :
  trace env (handleUrlUpload newURL url)
  = [EvSet (SetError (Some (fault_message EmptyInput)))]
  <-> all_space url = true.
Proof.
  split.
  - intros Htrace. apply trim_empty_all_space.
    unfold handleUrlUpload in Htrace.
    destruct (Js.trim url) eqn:Ht; [reflexivity|]. cbn in Htrace. discriminate.
  - intros Hblank. unfold handleUrlUpload.
    now rewrite (trim_all_space url Hblank).
Qed.

(** X3: when the button is enabled, no upload is running, the typed URL is
    not blank, and the click starts a run with the three opening updates:
    the refusal of blank input cannot be reached through the button. *)
Theorem enabled_button_starts_a_run
    (newURL : string -> option Thrown) (env : Oracle) (st : AppState) :
  button_disabled st = false ->
  isUploading st = false /\
  all_space (imageUrl st) = false /\
  exists rest, trace env (onClick newURL st) = started ++ rest.
Proof.
  unfold button_disabled, onClick. intros H.
  apply orb_false_iff in H as [Hbusy Hurl]. apply negb_false_iff in Hurl.
  split; [exact Hbusy|]. split.
  - destruct (all_space (imageUrl st)) eqn:Hs; [|reflexivity].
    now rewrite (trim_all_space _ Hs) in Hurl.
  - destruct (handleUrlUpload_pipeline newURL (imageUrl st) Hurl) as (body & -> & _).
    exists (trace env body). reflexivity.
Qed.

Lemma enabled_button_starts_a_run_witness :
  isUploading typed_state = false /\
  all_space (imageUrl typed_state) = false /\
  exists rest, trace obliging (onClick sample_newURL typed_state) = started ++ rest.
Proof.
  apply (enabled_button_starts_a_run sample_newURL obliging typed_state).
  reflexivity.
Defined.

(** X4: a run of [handleUrlUpload] on a URL that is not blank succeeds
    exactly when nothing fails; otherwise it shows the message of the
    first failure: the exception of the URL parser, or the first rejection
    among decode, [upload], [addElement] and [whenUploaded].  The message
    is that of the [Error], the generic one for other values, and "Please
    enter a valid URL" for every [TypeError] whose message contains
    "Invalid URL", wherever it comes from.  A failed HEAD request is no
    failure. *)
Theorem url_run_reports_first_rejection
    (newURL : string -> option Thrown) (env : Oracle) (url : string)
    (st : AppState) :
  Js.trim url <> ""%string ->
  indicators (final_state env (handleUrlUpload newURL url) st)
  = match match newURL url with
          | Some e => Some e
          | None => aborting_rejection (trace env (handleUrlUpload newURL url))
          end
    with
    | Some e => (Some (url_catch_message e), false)
    | None => (None, true)
    end.
Proof.
  intros Htrim. destruct (newURL url) as [e|] eqn:Hparse.
  { unfold final_state, handleUrlUpload, validate_url, url_catch_message.
    destruct (Js.trim url) eqn:Ht; [contradiction|]. rewrite Hparse.
    spine. destruct (_ && _); reflexivity. }
  unfold final_state.
  apply (every_run env
           (fun tr => indicators (replay tr st)
                      = match aborting_rejection tr with
                        | Some e => (Some (url_catch_message e), false)
                        | None => (None, true)
                        end)
           (handleUrlUpload newURL url) []).
  unfold handleUrlUpload, validate_url, getImageInfo, load_dimensions.
  destruct (Js.trim url) eqn:Ht; [contradiction|]. rewrite Hparse.
  walk ltac:(unfold url_catch_message; resolve_ifs; reflexivity).
Qed.

Lemma url_run_reports_first_rejection_witness :
  indicators (final_state undecodable
                (handleUrlUpload sample_newURL "https://example.com/a.png") initialState)
  = match match sample_newURL "https://example.com/a.png" with
          | Some e => Some e
          | None =>
              aborting_rejection
                (trace undecodable
                   (handleUrlUpload sample_newURL "https://example.com/a.png"))
          end
    with
    | Some e => (Some (url_catch_message e), false)
    | None => (None, true)
    end.
Proof.
  apply (url_run_reports_first_rejection sample_newURL undecodable
           "https://example.com/a.png" initialState).
  discriminate.
Defined.

(** X5: a run of [handleFileUpload] on an image file succeeds exactly
    when nothing fails; otherwise it shows the message of the first
    rejection among the data URL read, decode, [upload], [addElement] and
    [whenUploaded]: that of the [Error], the generic one for other values.
    A failed signature read is no failure. *)
Theorem file_run_reports_first_rejection (env : Oracle) (file : File) (st : AppState) :
  Js.startsWith (file_type file) "image/" = true ->
  indicators (final_state env (handleFileUpload file) st)
  = match aborting_rejection (trace env (handleFileUpload file)) with
    | Some e => (Some (file_catch_message e), false)
    | None => (None, true)
    end.
Proof.
  intros Htype. unfold final_state.
  apply (every_run env
           (fun tr => indicators (replay tr st)
                      = match aborting_rejection tr with
                        | Some e => (Some (file_catch_message e), false)
                        | None => (None, true)
                        end)
           (handleFileUpload file) []).
  unfold handleFileUpload, getFileMimeType, getImageInfo, load_dimensions.
  rewrite Htype.
  walk ltac:(reflexivity).
Qed.

Lemma file_run_reports_first_rejection_witness :
  indicators (final_state unreadable (handleFileUpload x_png) initialState)
  = match aborting_rejection (trace unreadable (handleFileUpload x_png)) with
    | Some e => (Some (file_catch_message e), false)
    | None => (None, true)
    end.
Proof.
  apply (file_run_reports_first_rejection unreadable x_png initialState).
  reflexivity.
Defined.

(** X6: [handleUrlUpload] calls [upload] at most once, and then with
    what [getImageInfo] returned for the URL: its MIME type, width and
    height, and the URL itself as source and as thumbnail. *)
Theorem url_upload_descriptor (newURL : string -> option Thrown) (env : Oracle)
    (url : string) :
  uploads (trace env (handleUrlUpload newURL url)) = [] \/
  exists info,
    completion env (getImageInfo url) = Fulfilled info /\
    uploads (trace env (handleUrlUpload newURL url))
    = [ {| up_mimeType := info_mimeType info;
           up_url := url;
           up_thumbnailUrl := url;
           up_width := info_width info;
           up_height := info_height info |} ].
Proof.
  unfold handleUrlUpload, validate_url, getImageInfo, load_dimensions.
  settle env ltac:(solve [ left; reflexivity
                         | right; eexists; split; reflexivity ]).
Qed.

(** X7: [handleFileUpload] calls [upload] at most once, and then with
    the data URL of the file as source and as thumbnail, the width and
    height that [getImageInfo] found for this data URL, and the MIME type
    of [getFileMimeType]: the type that [getImageInfo] reads off the data
    URL is not used. *)
Theorem file_upload_descriptor (env : Oracle) (file : File) :
  match env _ (ReadAsDataURL file) with
  | Resolved dataUrl =>
      uploads (trace env (handleFileUpload file)) = [] \/
      exists mimeType info,
        completion env (getFileMimeType file) = Fulfilled mimeType /\
        completion env (getImageInfo dataUrl) = Fulfilled info /\
        uploads (trace env (handleFileUpload file))
        = [ {| up_mimeType := mimeType;
               up_url := dataUrl;
               up_thumbnailUrl := dataUrl;
               up_width := info_width info;
               up_height := info_height info |} ]
  | Rejected _ => uploads (trace env (handleFileUpload file)) = []
  end.
Proof.
  unfold handleFileUpload, getFileMimeType, getImageInfo, load_dimensions.
  settle env ltac:(solve [ reflexivity
                         | left; reflexivity
                         | right; do 2 eexists; repeat split; reflexivity ]).
Qed.

(** X8: a run calls [addElement] at most once, and then [upload] has
    resolved exactly once and the element refers to that handle; the
    alternative text is "uploaded image" for a URL and the file name, or
    "uploaded image" when it is empty, for a file. *)
Theorem insertion_uses_uploaded_handle
    (newURL : string -> option Thrown) (env : Oracle) (s : Submission) :
  insertions (trace env (submit newURL s)) = [] \/
  exists image,
    resolved_handles (trace env (submit newURL s)) = [image] /\
    insertions (trace env (submit newURL s)) = [(handle_ref image, alt_text_of s)].
Proof.
  apply (every_run env
           (fun tr => insertions tr = [] \/
                      exists image,
                        resolved_handles tr = [image] /\
                        insertions tr = [(handle_ref image, alt_text_of s)])
           (submit newURL s) []).
  destruct s as [url | file]; cbn [submit alt_text_of];
    unfold handleUrlUpload, handleFileUpload, validate_url, getFileMimeType,
      getImageInfo, load_dimensions;
    walk ltac:(solve [ left; reflexivity | right; eexists; split; reflexivity ]).
Qed.

(** X9: the element is inserted before the upload is confirmed: when
    [whenUploaded] rejects, [addElement] has already resolved, and the run
    ends with an error and without success. *)
Theorem confirmation_failure_after_insertion
    (newURL : string -> option Thrown) (env : Oracle) (s : Submission)
    (st : AppState) :
  existsb is_confirmation_failure (trace env (submit newURL s)) = true ->
  existsb is_resolved_insertion (trace env (submit newURL s)) = true /\
  (exists msg, error (final_state env (submit newURL s) st) = Some msg) /\
  success (final_state env (submit newURL s) st) = false.
Proof.
  unfold final_state.
  apply (every_run env
           (fun tr => existsb is_confirmation_failure tr = true ->
                      existsb is_resolved_insertion tr = true /\
                      (exists msg, error (replay tr st) = Some msg) /\
                      success (replay tr st) = false)
           (submit newURL s) []).
  destruct s as [url | file]; cbn [submit];
    unfold handleUrlUpload, handleFileUpload, validate_url, getFileMimeType,
      getImageInfo, load_dimensions;
    walk ltac:(solve [ cbn; discriminate | cbn; intros _; repeat split; eauto ]).
Qed.

Lemma confirmation_failure_after_insertion_witness :
  existsb is_resolved_insertion (trace unconfirmed (submit sample_newURL first_url)) = true /\
  (exists msg,
     error (final_state unconfirmed (submit sample_newURL first_url) initialState)
     = Some msg) /\
  success (final_state unconfirmed (submit sample_newURL first_url) initialState) = false.
Proof.
  apply (confirmation_failure_after_insertion sample_newURL unconfirmed
           first_url initialState).
  reflexivity.
Defined.

(** X10: when the data URL of an image file cannot be read, the run ends
    with the message of that failure: nothing is decoded and nothing is
    uploaded. *)
Theorem unreadable_file_aborts_before_decode
    (env : Oracle) (file : File) (e : Thrown) (st : AppState) :
  Js.startsWith (file_type file) "image/" = true ->
  env _ (ReadAsDataURL file) = Rejected e ->
  existsb is_decode_call (trace env (handleFileUpload file)) = false /\
  uploads (trace env (handleFileUpload file)) = [] /\
  indicators (final_state env (handleFileUpload file) st)
  = (Some (file_catch_message e), false).
Proof.
  intros Htype. unfold final_state, handleFileUpload, getFileMimeType.
  rewrite Htype.
  settle env ltac:(solve [ intros H; discriminate H
                         | intros H; injection H as <-; repeat split; reflexivity ]).
Qed.

Lemma unreadable_file_aborts_before_decode_witness :
  existsb is_decode_call (trace unreadable (handleFileUpload x_png)) = false /\
  uploads (trace unreadable (handleFileUpload x_png)) = [] /\
  indicators (final_state unreadable (handleFileUpload x_png) initialState)
  = (Some (file_catch_message OtherValue), false).
Proof.
  apply (unreadable_file_aborts_before_decode unreadable x_png OtherValue initialState);
    reflexivity.
Defined.

(** X11: a failure whose [Error] has an empty message is invisible: the
    run ends with neither the error alert, nor the success alert, nor an
    error at the form field. *)
Theorem failure_without_message_shows_nothing
    (newURL : string -> option Thrown) (env : Oracle) (s : Submission)
    (isTypeError : bool) (st : AppState) :
  aborting_rejection (trace env (submit newURL s))
  = Some (ErrorObject isTypeError "") ->
  error_alert (final_state env (submit newURL s) st) = None /\
  success_alert (final_state env (submit newURL s) st) = false /\
  field_error (final_state env (submit newURL s) st) = None.
Proof.
  unfold final_state.
  apply (every_run env
           (fun tr => aborting_rejection tr = Some (ErrorObject isTypeError "") ->
                      error_alert (replay tr st) = None /\
                      success_alert (replay tr st) = false /\
                      field_error (replay tr st) = None)
           (submit newURL s) []).
  destruct s as [url | file]; cbn [submit];
    unfold handleUrlUpload, handleFileUpload, validate_url, getFileMimeType,
      getImageInfo, load_dimensions;
    walk ltac:(solve [ cbn; discriminate
                     | cbn; intros [= ->]; cbn in *;
                       rewrite ?andb_false_r in *; try discriminate;
                       repeat split ]).
Qed.

Lemma failure_without_message_shows_nothing_witness :
  error_alert (final_state mute_upload (submit sample_newURL first_url) initialState)
  = None /\
  success_alert (final_state mute_upload (submit sample_newURL first_url) initialState)
  = false /\
  field_error (final_state mute_upload (submit sample_newURL first_url) initialState)
  = None.
Proof.
  apply (failure_without_message_shows_nothing sample_newURL mute_upload
           first_url false initialState).
  reflexivity.
Defined.

(** ** The state along a run *)

Lemma updates_of_app (tr1 tr2 : list Event) :
  updates_of (tr1 ++ tr2) = updates_of tr1 ++ updates_of tr2.
Proof.
  induction tr1 as [|[u|X c o] tr1 IH]; cbn; [reflexivity | now rewrite IH | exact IH].
Qed.

Lemma updates_of_calls (calls : list Event) :
  forallb is_call calls = true -> updates_of calls = [].
Proof.
  induction calls as [|[u|X c o] calls IH]; cbn; intros H; auto; discriminate.
Qed.

(** X12: the state updates of a run are one of three sequences: the
    error alone (input refused); the three opening updates, the error, the
    busy flag down (run aborted); the three opening updates, success, the
    URL input cleared, the busy flag down (run completed).  Nothing is
    written in between. *)
Theorem run_updates_open_and_close
    (newURL : string -> option Thrown) (env : Oracle) (s : Submission) :
  (exists msg, updates_of (trace env (submit newURL s)) = [SetError (Some msg)]) \/
  (exists msg,
     updates_of (trace env (submit newURL s))
     = [SetIsUploading true; SetError None; SetSuccess false;
        SetError (Some msg); SetIsUploading false]) \/
  updates_of (trace env (submit newURL s))
  = [SetIsUploading true; SetError None; SetSuccess false;
     SetSuccess true; SetImageUrl ""; SetIsUploading false].
Proof.
  destruct (submit_run newURL env s)
    as [msg | calls msg Hcalls _ | calls opts image alt Hcalls _ _ _].
  - left. exists msg. reflexivity.
  - right. left. exists msg.
    now rewrite !updates_of_app, (updates_of_calls calls Hcalls).
  - right. right.
    now rewrite !updates_of_app, (updates_of_calls calls Hcalls).
Qed.

(** X13: a run that starts shows its own outcome, whatever was on
    display before: the indicators it leaves are those of the same run
    from the initial state, and they are either success without error or
    an error without success.  So of two submissions made one after the
    other, the second, when it starts, leaves nothing of the first. *)
Theorem started_run_shows_its_own_outcome
    (newURL : string -> option Thrown) (env : Oracle) (s : Submission)
    (st : AppState) :
  refused s = false ->
  indicators (final_state env (submit newURL s) st) = outcome env (submit newURL s) /\
  (outcome env (submit newURL s) = (None, true) \/
   exists msg, outcome env (submit newURL s) = (Some msg, false)).
Proof.
  intros Href.
  assert (Hstart : exists body,
             submit newURL s
             = Act (SetIsUploading true) (Act (SetError None) (Act (SetSuccess false) body)) /\
             Pipeline [] body).
  { destruct s as [url | file]; cbn in Href; apply negb_false_iff in Href.
    - now apply handleUrlUpload_pipeline.
    - now apply handleFileUpload_pipeline. }
  destruct Hstart as (body & E & P).
  destruct (pipeline_effect env _ _ P) as (c & Hc).
  rewrite (outcome_started env _ body c E Hc).
  rewrite E. unfold final_state. cbn [trace replay].
  change (replay (trace env body) ?x) with (effect env body x).
  rewrite Hc. destruct c; cbn; eauto.
Qed.

Lemma started_run_shows_its_own_outcome_witness :
  indicators (final_state undecodable (submit sample_newURL second_url) succeeded_state)
  = outcome undecodable (submit sample_newURL second_url) /\
  (outcome undecodable (submit sample_newURL second_url) = (None, true) \/
   exists msg, outcome undecodable (submit sample_newURL second_url) = (Some msg, false)).
Proof.
  apply (started_run_shows_its_own_outcome sample_newURL undecodable
           second_url succeeded_state).
  reflexivity.
Defined.

(** X14: a run that does not set the success indicator leaves the typed
    URL as it was, and ends with an error. *)
Theorem unsuccessful_run_keeps_typed_url
    (newURL : string -> option Thrown) (env : Oracle) (s : Submission)
    (st : AppState) :
  existsb is_success_set (trace env (submit newURL s)) = false ->
  imageUrl (final_state env (submit newURL s) st) = imageUrl st /\
  exists msg, error (final_state env (submit newURL s) st) = Some msg.
Proof.
  unfold final_state.
  destruct (submit_run newURL env s)
    as [msg | calls msg Hcalls _ | calls opts image alt Hcalls _ _ _].
  - intros _. cbn. eauto.
  - intros _. rewrite !replay_app, (replay_calls calls _ Hcalls). cbn. eauto.
  - rewrite !existsb_app. cbn. rewrite !orb_true_r. discriminate.
Qed.

Lemma unsuccessful_run_keeps_typed_url_witness :
  imageUrl (final_state undecodable (submit sample_newURL first_url) typed_state)
  = imageUrl typed_state /\
  exists msg,
    error (final_state undecodable (submit sample_newURL first_url) typed_state)
    = Some msg.
Proof.
  apply (unsuccessful_run_keeps_typed_url sample_newURL undecodable
           first_url typed_state).
  reflexivity.
Defined.

(** ** What the sniffers look at *)

(** X16: [getImageInfo] settles as the decode of the URL does: with its
    width and height when it resolves, with its reason when it rejects;
    a failed HEAD request never makes it fail.  The HEAD request is made
    exactly for the URLs that do not start with "data:". *)
Theorem getImageInfo_settles_as_decode (env : Oracle) (url : string) :
  match env _ (LoadImage url) with
  | Resolved (w, h) =>
      exists mimeType,
        completion env (getImageInfo url) = Fulfilled (mkImageInfo w h mimeType)
  | Rejected e => completion env (getImageInfo url) = Failed e
  end /\
  existsb is_head_request (trace env (getImageInfo url))
  = negb (Js.startsWith url "data:").
Proof.
  unfold getImageInfo, load_dimensions.
  settle env ltac:(solve [ split; [eexists|]; reflexivity | split; reflexivity ]).
Qed.

(** X17: for a remote URL that decodes, the result is PNG exactly when
    the HEAD response has a [content-type] header that contains
    "image/png" (in this letter case), or the HEAD request failed and the
    extension says PNG. *)
Theorem remote_png_iff (env : Oracle) (url : string) (w h : Z) :
  Js.startsWith url "data:" = false ->
  env _ (LoadImage url) = Resolved (w, h) ->
  completion env (getImageInfo url) = Fulfilled (mkImageInfo w h ImagePng) <->
  (exists contentType,
     env _ (FetchHead url) = Resolved (Some contentType) /\
     Js.includes contentType "image/png" = true) \/
  (exists reason,
     env _ (FetchHead url) = Rejected reason /\ extension_mime url = ImagePng).
Proof.
  intros Hdata Hload. unfold getImageInfo, load_dimensions. rewrite Hdata.
  cbn -[Js.includes]. destruct (env _ (FetchHead url)) as [[ct|]|reason];
    cbn -[Js.includes]; rewrite Hload; cbn -[Js.includes].
  - destruct ct as [|a ct]; cbn -[Js.includes].
    + split; [discriminate|]. intros [(ct' & [= <-] & H) | (r & H & _)]; discriminate.
    + destruct (Js.includes (String a ct) "image/png") eqn:Hinc.
      * split; [|reflexivity]. intros _. left. eauto.
      * split.
        -- destruct (_ || _); discriminate.
        -- intros [(ct' & [= <-] & H) | (r & H & _)];
             [rewrite Hinc in H|]; discriminate.
  - split; [discriminate|]. intros [(ct' & H & _) | (r & H & _)]; discriminate.
  - split.
    + intros [= H]. right. eauto.
    + intros [(ct' & H & _) | (r & _ & ->)]; [discriminate | reflexivity].
Qed.

Lemma remote_png_iff_witness :
  completion offline_head (getImageInfo "https://example.com/a.png")
  = Fulfilled (mkImageInfo 2 3 ImagePng) <->
  (exists contentType,
     offline_head _ (FetchHead "https://example.com/a.png") = Resolved (Some contentType) /\
     Js.includes contentType "image/png" = true) \/
  (exists reason,
     offline_head _ (FetchHead "https://example.com/a.png") = Rejected reason /\
     extension_mime "https://example.com/a.png" = ImagePng).
Proof.
  apply (remote_png_iff offline_head "https://example.com/a.png" 2 3); reflexivity.
Defined.

Lemma split_nonempty (c : ascii) (s : string) : Js.split c s <> [].
Proof.
  destruct s as [|a s]; cbn; [discriminate|].
  destruct (Ascii.eqb a c); [discriminate|].
  destruct (Js.split c s); discriminate.
Qed.

Lemma first_split (c : ascii) (s : string) :
  forall x,
    Js.first (Js.split c s) = Some x ->
    s = x \/ exists q, s = (x ++ String c q)%string.
Proof.
  induction s as [|a s IH]; intros x; cbn.
  - intros [= <-]. now left.
  - destruct (Ascii.eqb_spec a c) as [-> | Hac]; cbn.
    + intros [= <-]. right. exists s. reflexivity.
    + destruct (Js.split c s) as [|seg segs] eqn:Hsplit.
      * now apply split_nonempty in Hsplit.
      * cbn. intros [= <-].
        destruct (IH seg eq_refl) as [-> | [q ->]]; [now left|].
        right. exists q. reflexivity.
Qed.

(** X18: the extension is what follows the last dot of the whole URI.
    When the rest after that dot is [tail], the extension check says PNG
    exactly when [tail] in lower case is "png" or starts with "png?": a dot
    in the query string or in the fragment hides the extension of the
    file. *)
Theorem extension_is_read_after_last_dot (stem tail : string) :
  occurs "." tail = false ->
  extension_mime (stem ++ "." ++ tail)%string = ImagePng <->
  Js.toLowerCase tail = "png"%string \/
  exists q, Js.toLowerCase tail = ("png?" ++ q)%string.
Proof.
  intros Hdot. unfold extension_mime, url_extension.
  change (stem ++ "." ++ tail)%string with (stem ++ String "." tail)%string.
  rewrite (pop_split_last_dot stem tail Hdot).
  split.
  - destruct (Js.first (Js.split "?" (Js.toLowerCase tail))) as [ext|] eqn:Hfirst;
      [|discriminate].
    destruct (String.eqb_spec ext "png") as [-> | Hne]; [|discriminate].
    intros _. apply first_split in Hfirst as [Hlow | [q Hlow]].
    + now left.
    + right. exists q. exact Hlow.
  - intros [-> | [q ->]]; cbn; [reflexivity|].
    destruct (Js.split "?" q); reflexivity.
Qed.

Lemma extension_is_read_after_last_dot_witness :
  extension_mime ("https://example.com/a.png?v=1" ++ "." ++ "2")%string = ImagePng <->
  Js.toLowerCase "2" = "png"%string \/
  exists q, Js.toLowerCase "2" = ("png?" ++ q)%string.
Proof.
  apply (extension_is_read_after_last_dot "https://example.com/a.png?v=1" "2").
  reflexivity.
Defined.

(** X19: for a data URL with a token between "data:" and the first
    semicolon (or the end), that token alone decides: the result is PNG
    exactly when the token is "image/png", in this letter case. *)
Theorem data_url_token_decides (t tail : string) :
  t <> ""%string ->
  occurs ";" t = false ->
  tail = ""%string \/ (exists r, tail = String ";" r) ->
  data_url_mime ("data:" ++ t ++ tail)%string = ImagePng <-> t = "image/png"%string.
Proof.
  intros Hne Ht Htail. unfold data_url_mime.
  rewrite (match_data_prefix_token t tail Hne Ht Htail).
  destruct (String.eqb_spec t "image/png") as [-> | Hpng].
  - split; reflexivity.
  - split; [|contradiction]. destruct (_ || _); discriminate.
Qed.

Lemma data_url_token_decides_witness :
  data_url_mime ("data:" ++ "image/PNG" ++ ";base64,AAAA")%string = ImagePng <->
  "image/PNG"%string = "image/png"%string.
Proof.
  apply (data_url_token_decides "image/PNG" ";base64,AAAA").
  - discriminate.
  - reflexivity.
  - right. eexists. reflexivity.
Defined.

Lemma sniff_signature_png_iff (buf : list Byte.byte) :
  sniff_signature buf = ImagePng <-> exists rest, buf = png_signature ++ rest.
Proof.
  split.
  - unfold sniff_signature, slice8, byte_at_is.
    destruct buf as [|a [|b [|c [|d rest]]]]; cbn;
      try (intros H; exfalso; rewrite ?andb_false_r in H; cbn in H;
           repeat match type of H with
                  | context [if ?x then _ else _] => destruct x
                  end;
           discriminate H).
    destruct (Byte.eqb a Byte.x89) eqn:Ha; cbn;
      [| destruct (_ && _ && _); discriminate].
    destruct (Byte.eqb b Byte.x50) eqn:Hb; cbn;
      [| destruct (_ && _ && _); discriminate].
    destruct (Byte.eqb c Byte.x4e) eqn:Hc; cbn;
      [| destruct (_ && _ && _); discriminate].
    destruct (Byte.eqb d Byte.x47) eqn:Hd; cbn;
      [| destruct (_ && _ && _); discriminate].
    intros _. exists rest.
    apply Stdlib.Strings.Byte.byte_dec_bl in Ha, Hb, Hc, Hd. now subst.
  - intros [rest ->]. reflexivity.
Qed.

(** X20: [getFileMimeType] answers PNG exactly when the declared type is
    "image/png", or the declared type is none of the three known ones and
    the read gives a buffer that starts with [89 50 4E 47]; a buffer of
    fewer than four bytes, no buffer and a failed read give JPEG. *)
Theorem getFileMimeType_png_iff (env : Oracle) (file : File) :
  completion env (getFileMimeType file) = Fulfilled ImagePng <->
  file_type file = "image/png"%string \/
  (declared_mime (file_type file) = None /\
   exists rest,
     env _ (ReadAsArrayBuffer (slice8 (file_bytes file)))
     = Resolved (Some (png_signature ++ rest))).
Proof.
  unfold getFileMimeType, declared_mime.
  destruct (String.eqb_spec (file_type file) "image/png") as [Hpng | Hpng].
  { split; [now left | reflexivity]. }
  destruct (_ || _).
  { split; [discriminate|]. intros [H | [H _]]; [contradiction | discriminate]. }
  cbn. destruct (env _ (ReadAsArrayBuffer (slice8 (file_bytes file))))
    as [[buf|]|reason]; cbn.
  - split.
    + intros H. right. split; [reflexivity|].
      injection H as H. apply sniff_signature_png_iff in H as [rest ->].
      exists rest. reflexivity.
    + intros [H | [_ [rest H]]]; [contradiction|].
      injection H as ->. reflexivity.
  - split; [discriminate|]. intros [H | [_ [rest H]]]; [contradiction | discriminate].
  - split; [discriminate|]. intros [H | [_ [rest H]]]; [contradiction | discriminate].
Qed.
